(** * pixi.js: the particle container and the rope mesh

  A shallow embedding of [src/particles/ParticleContainer.js] and of the
  rope mesh ([Rope], a subclass of [Mesh]), with the properties their
  documentation states.

  Numbers.  Counts, sizes and indices ([maxSize], [batchSize], child
  indices, batch indices) are JavaScript numbers that hold integers; they
  are embedded as [Z].  Coordinates, texture rectangles and opacities are
  embedded as exact numbers ([R], and [Q] for the opacity, which is only
  compared with 0): rounding of binary floating point, and the rounding
  of a store into a [Float32Array], are outside this model.  The one
  non-finite value the rope code produces from finite input, the [NaN]
  of [0 / 0], is part of the model ([num]). *)

From Stdlib Require Import ZArith List Lia Reals Lra.
From Stdlib Require QArith.
From stdpp Require Import base option list gmap strings.

Module JS.

(** The argument of a call: [None] is an omitted argument ([undefined]). *)
Definition arg (A : Type) := option A.

(** [a || d] on an integer-valued number: [undefined] and [0] are falsy. *)
Definition or_default (a : arg Z) (d : Z) : Z :=
  match a with
  | Some n => if (n =? 0)%Z then d else n
  | None => d
  end.

(** The values a property of an options object may hold. *)
Inductive value :=
| VUndefined
| VNull
| VBool (b : bool)
| VNumber (n : Z)
| VString (s : string).

(** [!!v] *)
Definition truthy (v : value) : bool :=
  match v with
  | VUndefined | VNull => false
  | VBool b => b
  | VNumber n => negb (n =? 0)%Z
  | VString s => match s with EmptyString => false | String _ _ => true end
  end.

(** A call that may throw returns an [option]: [None] is a [TypeError]
    (a property read on [null] or [undefined]). *)
Definition TypeError {A : Type} : option A := None.

End JS.

(** ** The particle container *)

Module ParticleContainer.
Import JS.

(** References to shared objects: base textures live in a store, GPU
    buffer groups are opaque handles. *)
Definition ref := nat.
Definition buffer := nat.

(** What this file reads of a child: [child._texture.baseTexture]. *)
Record Texture := { t_baseTexture : ref }.
Record Sprite := { _texture : Texture }.

(** The callback registered in [renderWebGL]:
    [function(){ this.onChildrenChange(0); }], bound to the container. *)
Inductive Listener := invalidate_first_batch.

(** A base texture, as this file uses it: the loaded flag and the
    listeners registered with [once('update', ...)]. *)
Record BaseTexture := {
  hasLoaded : bool;
  once_update : list Listener
}.

(** The calls made on the renderer, in order. *)
Inductive RendererCall :=
| setObjectRenderer_particle
| particle_render.

Record Store := {
  textures : gmap ref BaseTexture;
  calls : list RendererCall
}.

(** The part of the object inherited from [core.Container] that this file
    reads. *)
Record Container := {
  visible : bool;
  worldAlpha : QArith_base.Q;
  renderable : bool;
  children : list Sprite
}.

(** The container.  [_properties] is [None] once it is [null];
    [_buffers] is [None] while it is [undefined] or [null] (both falsy).
    [blendMode], which no operation below reads, is left out. *)
Record t := {
  super : Container;
  _properties : option (list bool);
  _maxSize : Z;
  _batchSize : Z;
  _glBuffers : list buffer;
  _buffers : option (list buffer);
  _bufferToUpdate : Z;
  interactiveChildren : bool;
  roundPixels : bool;
  baseTexture : option ref
}.

Definition set_super (v : Container) (c : t) : t :=
  {| super := v; _properties := _properties c; _maxSize := _maxSize c;
     _batchSize := _batchSize c; _glBuffers := _glBuffers c;
     _buffers := _buffers c; _bufferToUpdate := _bufferToUpdate c;
     interactiveChildren := interactiveChildren c;
     roundPixels := roundPixels c; baseTexture := baseTexture c |}.

Definition set_properties (v : option (list bool)) (c : t) : t :=
  {| super := super c; _properties := v; _maxSize := _maxSize c;
     _batchSize := _batchSize c; _glBuffers := _glBuffers c;
     _buffers := _buffers c; _bufferToUpdate := _bufferToUpdate c;
     interactiveChildren := interactiveChildren c;
     roundPixels := roundPixels c; baseTexture := baseTexture c |}.

Definition set_buffers (v : option (list buffer)) (c : t) : t :=
  {| super := super c; _properties := _properties c; _maxSize := _maxSize c;
     _batchSize := _batchSize c; _glBuffers := _glBuffers c;
     _buffers := v; _bufferToUpdate := _bufferToUpdate c;
     interactiveChildren := interactiveChildren c;
     roundPixels := roundPixels c; baseTexture := baseTexture c |}.

Definition set_bufferToUpdate (v : Z) (c : t) : t :=
  {| super := super c; _properties := _properties c; _maxSize := _maxSize c;
     _batchSize := _batchSize c; _glBuffers := _glBuffers c;
     _buffers := _buffers c; _bufferToUpdate := v;
     interactiveChildren := interactiveChildren c;
     roundPixels := roundPixels c; baseTexture := baseTexture c |}.

Definition set_baseTexture (v : option ref) (c : t) : t :=
  {| super := super c; _properties := _properties c; _maxSize := _maxSize c;
     _batchSize := _batchSize c; _glBuffers := _glBuffers c;
     _buffers := _buffers c; _bufferToUpdate := _bufferToUpdate c;
     interactiveChildren := interactiveChildren c;
     roundPixels := roundPixels c; baseTexture := v |}.

(** *** setProperties *)

(** ['key' in properties ? !!properties.key : this._properties[i]] *)
Definition flag (properties : gmap string value) (key : string)
    (flags : list bool) (i : nat) : bool :=
  match properties !! key with
  | Some v => truthy v
  | None => flags !!! i
  end.

(** The five assignments, in order.  The array is the five-element one
    the constructor builds, so each index is in range (a JavaScript store
    past the end would grow the array; [<[_:=_]>] would not). *)
Definition setProperties (properties : arg (gmap string value)) (this : t)
    : option t :=
  match properties with
  | None => Some this
  | Some properties =>
      match _properties this with
      | None => TypeError
      | Some p =>
          let p := <[0%nat := flag properties "scale" p 0]> p in
          let p := <[1%nat := flag properties "position" p 1]> p in
          let p := <[2%nat := flag properties "rotation" p 2]> p in
          let p := <[3%nat := flag properties "uvs" p 3]> p in
          let p := <[4%nat := flag properties "alpha" p 4]> p in
          Some (set_properties (Some p) this)
      end
  end.

(** *** The constructor *)

Definition maxBatchSize : Z := 16384.

(** [base] is the object as [super()] leaves it. *)
Definition constructor (base : Container) (maxSize : arg Z)
    (properties : arg (gmap string value)) (batchSize : arg Z) : option t :=
  let batchSize := or_default batchSize 15000 in
  let maxSize := or_default maxSize 15000 in
  let batchSize :=
    if (batchSize >? maxBatchSize)%Z then maxBatchSize else batchSize in
  let batchSize :=
    if (batchSize >? maxSize)%Z then maxSize else batchSize in
  setProperties properties
    {| super := base;
       _properties := Some [false; true; false; false; false];
       _maxSize := maxSize;
       _batchSize := batchSize;
       _glBuffers := [];
       _buffers := None;
       _bufferToUpdate := 0;
       interactiveChildren := false;
       roundPixels := true;
       baseTexture := None |}.

(** *** onChildrenChange *)

(** [Math.floor(smallestChildIndex / this._batchSize)]: for a divisor
    other than 0 this is [Z.div], which rounds towards minus infinity for
    either sign of the divisor.  The constructor never stores 0. *)
Definition onChildrenChange (smallestChildIndex : Z) (this : t) : t :=
  let bufferIndex := (smallestChildIndex / _batchSize this)%Z in
  if (bufferIndex <? _bufferToUpdate this)%Z
  then set_bufferToUpdate bufferIndex this
  else this.

(** *** renderWebGL *)

Definition run_listener (l : Listener) (this : t) : t :=
  match l with
  | invalidate_first_batch => onChildrenChange 0 this
  end.

(** [this.baseTexture.once('update', listener, this)] *)
Definition once (b : ref) (bt : BaseTexture) (l : Listener) (s : Store)
    : Store :=
  {| textures :=
       <[b := {| hasLoaded := hasLoaded bt;
                 once_update := once_update bt ++ [l] |}]> (textures s);
     calls := calls s |}.

Definition call (r : RendererCall) (s : Store) : Store :=
  {| textures := textures s; calls := calls s ++ [r] |}.

Definition renderWebGL (this : t) (s : Store) : option (t * Store) :=
  if negb (visible (super this))
     || QArith_base.Qle_bool (worldAlpha (super this)) (QArith_base.Qmake 0 1)
     || (length (children (super this)) =? 0)%nat
     || negb (renderable (super this))
  then Some (this, s)
  else
    '(this, s) ←
      match baseTexture this with
      | Some _ => Some (this, s)
      | None =>
          child ← children (super this) !! 0%nat;
          let b := t_baseTexture (_texture child) in
          let this := set_baseTexture (Some b) this in
          bt ← textures s !! b;
          if negb (hasLoaded bt)
          then Some (this, once b bt invalidate_first_batch s)
          else Some (this, s)
      end;
    let s := call setObjectRenderer_particle s in
    let s := call particle_render s in
    Some (this, s).

(** Modelled from the spec: the image subsystem's one-shot 'update'
    notification, which is not part of this file.  Firing it on base
    texture [b] runs every listener registered with [once] and drops
    them. *)
Definition emit_update (b : ref) (this : t) (s : Store) : t * Store :=
  match textures s !! b with
  | None => (this, s)
  | Some bt =>
      (fold_left (fun c l => run_listener l c) (once_update bt) this,
       {| textures :=
            <[b := {| hasLoaded := hasLoaded bt; once_update := [] |}]>
              (textures s);
          calls := calls s |})
  end.

(** *** destroy *)

(** [super_destroy] is [core.Container]'s [destroy], which acts on the
    inherited part of the object.  The second component of the result
    lists the buffers on which [destroy()] was called, in order. *)
Definition destroy (super_destroy : Container -> Container) (this : t)
    : t * list buffer :=
  let this := set_super (super_destroy (super this)) this in
  let released :=
    match _buffers this with
    | Some bs => bs
    | None => []
    end in
  let this := set_properties None this in
  let this := set_buffers None this in
  (this, released).

(** *** Example objects *)

(** A container as [core.Container]'s constructor leaves it: visible,
    opaque, renderable and without children. *)
Definition fresh_container : Container :=
  {| visible := true;
     worldAlpha := QArith_base.Qmake 1 1;
     renderable := true;
     children := [] |}.

(** The same with one child, whose texture sits on base texture 0. *)
Definition one_child : Container :=
  {| visible := true;
     worldAlpha := QArith_base.Qmake 1 1;
     renderable := true;
     children := [ {| _texture := {| t_baseTexture := 0%nat |} |} ] |}.

(** A store whose base texture 0 has not loaded yet. *)
Definition loading_store : Store :=
  {| textures := {[ 0%nat := {| hasLoaded := false; once_update := [] |} ]};
     calls := [] |}.

(** Modelled from the spec: the rendering backend, which is not part of
    this file, allocates the buffer groups on first render; the container
    keeps them in [_glBuffers], the list its constructor creates. *)
Definition allocate (bs : list buffer) (c : t) : t :=
  {| super := super c; _properties := _properties c; _maxSize := _maxSize c;
     _batchSize := _batchSize c; _glBuffers := _glBuffers c ++ bs;
     _buffers := _buffers c; _bufferToUpdate := _bufferToUpdate c;
     interactiveChildren := interactiveChildren c;
     roundPixels := roundPixels c; baseTexture := baseTexture c |}.

End ParticleContainer.

(** ** The particle container on a canvas

    [renderCanvas] reads more of the container and of its children than
    the operations above: this is the same container, seen with the fields
    that [renderCanvas] reads.  Numbers are exact rationals.  The result is
    the sequence of operations made on the 2D context, in order. *)

Module Canvas.
Import QArith_base.
Local Open Scope Q_scope.

Record Point := { x : Q; y : Q }.

(** [a], [b], [c], [d], [tx], [ty] of a matrix; also the six arguments of
    [context.setTransform]. *)
Record Matrix := { a : Q; b : Q; c : Q; d : Q; tx : Q; ty : Q }.

(** [x], [y], [width], [height] of a frame; also a source or destination
    rectangle of [context.drawImage]. *)
Record Rectangle := { left : Q; top : Q; width : Q; height : Q }.

(** [source] is the image, an opaque handle. *)
Record BaseTexture := { source : nat; resolution : Q }.

Record Texture := { frame : Rectangle; baseTexture : BaseTexture }.

Module Sprite.
Record t := {
  visible : bool;
  texture : Texture;
  alpha : Q;
  rotation : Q;
  anchor : Point;
  scale : Point;
  position : Point
}.
End Sprite.

Record Container := {
  visible : bool;
  worldAlpha : Q;
  renderable : bool;
  children : list Sprite.t;
  blendMode : nat
}.

(** The renderer: the composite operation its context has on entry, the
    table of blend modes, the resolution and the rounding preference. *)
Record Renderer := {
  globalCompositeOperation : string;
  blendModes : list string;
  r_resolution : Q;
  roundPixels : bool
}.

(** An operation on the context. *)
Inductive Op :=
| set_globalCompositeOperation (v : option string)
| set_globalAlpha (v : Q)
| setTransform (m : Matrix)
| drawImage (image : nat) (src dst : Rectangle).

(** The integer part of a number, towards zero. *)
Definition truncate (q : Q) : Z := Z.quot (Qnum q) (Zpos (Qden q)).

(** [q | 0]: the integer part, wrapped to a signed 32-bit integer. *)
Definition bitor0 (q : Q) : Q :=
  let n := (truncate q mod 2 ^ 32)%Z in
  inject_Z (if (n >=? 2 ^ 31)%Z then n - 2 ^ 32 else n)%Z.

(** [p % q], the remainder with the sign of [p]; exact on doubles. *)
Definition rem (p q : Q) : Q := p - q * inject_Z (truncate (p / q)).

(** [Math.PI * 2], the double nearest to pi, doubled. *)
Definition TWO_PI : Q := 884279719003555 # 140737488355328.

(** [child.rotation % (Math.PI * 2) === 0] *)
Definition unrotated (child : Sprite.t) : bool :=
  Qeq_bool (rem (Sprite.rotation child) TWO_PI) 0.

Section renderCanvas.

(** [displayObjectUpdateTransform] is not part of this file; it computes
    the world transform and the world alpha of the object it is called
    on.  The code reads [this.worldTransform], taken in the variable
    [transform] before the call on the container, and [this.worldAlpha]
    for each child, after that call; it reads [child.worldTransform] after
    the call on the child.  [transform], [updated_worldAlpha] and
    [child_worldTransform] are what these hold when they are read.  The
    field [worldAlpha] of the container is the value on entry, read by the
    guard and by the first assignment to [globalAlpha]. *)
Variable transform : Matrix.
Variable updated_worldAlpha : Q.
Variable child_worldTransform : Sprite.t -> Matrix.

(** One turn of the loop over the children: the new value of [isRotated]
    and the operations made. *)
Definition renderCanvas_child (this : Container) (renderer : Renderer)
    (isRotated : bool) (child : Sprite.t) : bool * list Op :=
  if negb (Sprite.visible child) then (isRotated, [])
  else
    let frame := frame (Sprite.texture child) in
    let alpha_op :=
      set_globalAlpha (updated_worldAlpha * Sprite.alpha child) in
    let '(isRotated, transform_ops, positionX, positionY,
          finalWidth, finalHeight) :=
      if unrotated child then
        let '(isRotated, transform_ops) :=
          if isRotated
          then (false,
                [setTransform
                   {| a := a transform; b := b transform;
                      c := c transform; d := d transform;
                      tx := tx transform * r_resolution renderer;
                      ty := ty transform * r_resolution renderer |}])
          else (isRotated, []) in
        (isRotated, transform_ops,
         x (Sprite.anchor child)
           * ((- width frame) * x (Sprite.scale child))
           + x (Sprite.position child) + (1 # 2),
         y (Sprite.anchor child)
           * ((- height frame) * y (Sprite.scale child))
           + y (Sprite.position child) + (1 # 2),
         width frame * x (Sprite.scale child),
         height frame * y (Sprite.scale child))
      else
        let isRotated := if negb isRotated then true else isRotated in
        let childTransform := child_worldTransform child in
        let transform_ops :=
          if roundPixels renderer
          then [setTransform
                  {| a := a childTransform; b := b childTransform;
                     c := c childTransform; d := d childTransform;
                     tx := bitor0 (tx childTransform * r_resolution renderer);
                     ty := bitor0 (ty childTransform * r_resolution renderer)
                  |}]
          else [setTransform
                  {| a := a childTransform; b := b childTransform;
                     c := c childTransform; d := d childTransform;
                     tx := tx childTransform * r_resolution renderer;
                     ty := ty childTransform * r_resolution renderer |}] in
        (isRotated, transform_ops,
         x (Sprite.anchor child) * (- width frame) + (1 # 2),
         y (Sprite.anchor child) * (- height frame) + (1 # 2),
         width frame,
         height frame) in
    let resolution := resolution (baseTexture (Sprite.texture child)) in
    (isRotated,
     alpha_op :: transform_ops
     ++ [drawImage (source (baseTexture (Sprite.texture child)))
           {| left := left frame * resolution;
              top := top frame * resolution;
              width := width frame * resolution;
              height := height frame * resolution |}
           {| left := positionX * resolution;
              top := positionY * resolution;
              width := finalWidth * resolution;
              height := finalHeight * resolution |}]).

(** The loop: [isRotated] and the operations made so far. *)
Definition renderCanvas_loop (this : Container) (renderer : Renderer)
    (state : bool * list Op) (children : list Sprite.t) : bool * list Op :=
  fold_left
    (fun state child =>
       let '(isRotated, ops) := state in
       let '(isRotated, made) :=
         renderCanvas_child this renderer isRotated child in
       (isRotated, ops ++ made))
    children state.

Definition renderCanvas (this : Container) (renderer : Renderer) : list Op :=
  if negb (visible this)
     || Qle_bool (worldAlpha this) 0
     || (length (children this) =? 0)%nat
     || negb (renderable this)
  then []
  else
    let compositeOperation := blendModes renderer !! blendMode this in
    let ops :=
      if decide (compositeOperation = Some (globalCompositeOperation renderer))
      then []
      else [set_globalCompositeOperation compositeOperation] in
    let ops := ops ++ [set_globalAlpha (worldAlpha this)] in
    snd (renderCanvas_loop this renderer (true, ops) (children this)).

End renderCanvas.

(** The container with another list of children. *)
Definition with_children (cs : list Sprite.t) (this : Container) : Container :=
  {| visible := visible this; worldAlpha := worldAlpha this;
     renderable := renderable this; children := cs;
     blendMode := blendMode this |}.

(** The matrix set for a run of children that are not rotated. *)
Definition container_matrix (transform : Matrix) (renderer : Renderer)
    : Matrix :=
  {| a := a transform; b := b transform; c := c transform; d := d transform;
     tx := tx transform * r_resolution renderer;
     ty := ty transform * r_resolution renderer |}.

(** The matrix set for a rotated child. *)
Definition child_matrix (m : Matrix) (renderer : Renderer) : Matrix :=
  {| a := a m; b := b m; c := c m; d := d m;
     tx := if roundPixels renderer then bitor0 (tx m * r_resolution renderer)
           else tx m * r_resolution renderer;
     ty := if roundPixels renderer then bitor0 (ty m * r_resolution renderer)
           else ty m * r_resolution renderer |}.

(** *** Projections of the sequence of operations *)

(** The images drawn, in order. *)
Definition images (ops : list Op) : list nat :=
  omap (fun op => match op with drawImage i _ _ => Some i | _ => None end)
       ops.

(** The values given to [globalAlpha], in order. *)
Definition alphas (ops : list Op) : list Q :=
  omap (fun op => match op with set_globalAlpha v => Some v | _ => None end)
       ops.

(** The matrices given to [setTransform], in order. *)
Definition transforms (ops : list Op) : list Matrix :=
  omap (fun op => match op with setTransform m => Some m | _ => None end)
       ops.

(** *** Example objects *)

Definition identity : Matrix :=
  {| a := 1; b := 0; c := 0; d := 1; tx := 0; ty := 0 |}.

Definition particle (shown : bool) (turn : Q) : Sprite.t :=
  {| Sprite.visible := shown;
     Sprite.texture :=
       {| frame := {| left := 0; top := 0; width := 16; height := 16 |};
          baseTexture := {| source := 7%nat; resolution := 1 |} |};
     Sprite.alpha := 1 # 2;
     Sprite.rotation := turn;
     Sprite.anchor := {| x := 0; y := 0 |};
     Sprite.scale := {| x := 1; y := 1 |};
     Sprite.position := {| x := 3; y := 4 |} |}.

Definition container_of (cs : list Sprite.t) : Container :=
  {| visible := true; worldAlpha := 1; renderable := true;
     children := cs; blendMode := 0%nat |}.

Definition canvas_renderer (round : bool) : Renderer :=
  {| globalCompositeOperation := "source-over";
     blendModes := ["source-over"; "lighter"];
     r_resolution := 1;
     roundPixels := round |}.

End Canvas.

(** ** The rope *)

Module Rope.

Local Open Scope R_scope.

(** A number computed by the rope: a finite number or [NaN].  A division
    by 0 is [NaN] here; in JavaScript that holds for [0 / 0], a non-zero
    dividend gives an infinity.  Every division of this file whose
    divisor can be 0 has dividend 0 then: [i / (total - 1)] when the one
    point has index 0, and the normalisation, where a zero length means
    a zero vector. *)
Inductive num :=
| Fin (r : R)
| NaN.

Definition lift2 (f : R -> R -> R) (a b : num) : num :=
  match a, b with
  | Fin u, Fin v => Fin (f u v)
  | _, _ => NaN
  end.

Definition add : num -> num -> num := lift2 Rplus.
Definition sub : num -> num -> num := lift2 Rminus.
Definition mul : num -> num -> num := lift2 Rmult.

Definition neg (a : num) : num :=
  match a with
  | Fin u => Fin (- u)
  | NaN => NaN
  end.

Definition div (a b : num) : num :=
  match a, b with
  | Fin u, Fin v => if Req_dec_T v 0 then NaN else Fin (u / v)
  | _, _ => NaN
  end.

(** [Math.sqrt] *)
Definition sqrt (a : num) : num :=
  match a with
  | Fin u => if Rlt_dec u 0 then NaN else Fin (R_sqrt.sqrt u)
  | NaN => NaN
  end.

(** [a > b]; a comparison with [NaN] is false. *)
Definition gt (a b : num) : bool :=
  match a, b with
  | Fin u, Fin v => if Rgt_dec u v then true else false
  | _, _ => false
  end.

Definition of_nat (n : nat) : num := Fin (INR n).

Record Point := { x : R; y : R }.

Global Instance Point_inhabited : Inhabited Point :=
  populate {| x := 0; y := 0 |}.

(** The corners of the texture's UV rectangle that [refresh] reads. *)
Record TextureUvs := { x0 : R; y0 : R; x2 : R; y2 : R }.

(** [_uvs] is [None] until the UV rectangle is set. *)
Record Texture := { _uvs : option TextureUvs; height : R }.

(** The part of the object inherited from [Mesh] that this file uses.
    [containerUpdates] counts the calls of [containerUpdateTransform]. *)
Record Mesh := {
  _texture : Texture;
  dirty : bool;
  indexDirty : bool;
  containerUpdates : nat
}.

(** [vertices], [uvs] and [colors] are [Float32Array]s, [indices] is a
    [Uint16Array]. *)
Record t := {
  super : Mesh;
  points : list Point;
  vertices : list num;
  uvs : list num;
  colors : list num;
  indices : list Z;
  _ready : bool
}.

(** A store into a typed array; out of range it does nothing. *)
Definition Float32Array_set (i : nat) (v : num) (a : list num) : list num :=
  <[i := v]> a.

(** A store into a [Uint16Array] keeps the value modulo 2^16. *)
Definition Uint16Array_set (i : nat) (v : Z) (a : list Z) : list Z :=
  <[i := (v mod 65536)%Z]> a.

(** *** refresh *)

(** The state of the loop of [refresh]: the three arrays it fills. *)
Record Buffers := {
  b_uvs : list num;
  b_colors : list num;
  b_indices : list Z
}.

(** One turn of [for (let i = 1; i < total; i++)]. *)
Definition refresh_step (total : nat) (factor offset : Point)
    (b : Buffers) (i : nat) : Buffers :=
  let index := (i * 4)%nat in
  let amount := div (of_nat i) (sub (of_nat total) (Fin 1)) in
  let uvs := b_uvs b in
  let uvs :=
    Float32Array_set index
      (add (mul amount (Fin (x factor))) (Fin (x offset))) uvs in
  let uvs :=
    Float32Array_set (index + 1) (add (Fin 0) (Fin (y offset))) uvs in
  let uvs :=
    Float32Array_set (index + 2)
      (add (mul amount (Fin (x factor))) (Fin (x offset))) uvs in
  let uvs :=
    Float32Array_set (index + 3)
      (add (mul (Fin 1) (Fin (y factor))) (Fin (y offset))) uvs in
  let index := (i * 2)%nat in
  let colors := Float32Array_set index (Fin 1) (b_colors b) in
  let colors := Float32Array_set (index + 1) (Fin 1) colors in
  let index := (i * 2)%nat in
  let indices := Uint16Array_set index (Z.of_nat index) (b_indices b) in
  let indices :=
    Uint16Array_set (index + 1) (Z.of_nat (index + 1)) indices in
  {| b_uvs := uvs; b_colors := colors; b_indices := indices |}.

Definition refresh (this : t) : t :=
  let points := points this in
  if (length points <? 1)%nat then this
  else
    match _uvs (_texture (super this)) with
    | None => this
    | Some textureUvs =>
        let offset := {| x := x0 textureUvs; y := y0 textureUvs |} in
        let factor := {| x := x2 textureUvs - x0 textureUvs;
                         y := y2 textureUvs - y0 textureUvs |} in
        let uvs := uvs this in
        let uvs := Float32Array_set 0 (add (Fin 0) (Fin (x offset))) uvs in
        let uvs := Float32Array_set 1 (add (Fin 0) (Fin (y offset))) uvs in
        let uvs := Float32Array_set 2 (add (Fin 0) (Fin (x offset))) uvs in
        let uvs :=
          Float32Array_set 3
            (add (mul (Fin 1) (Fin (y factor))) (Fin (y offset))) uvs in
        let colors := Float32Array_set 0 (Fin 1) (colors this) in
        let colors := Float32Array_set 1 (Fin 1) colors in
        let indices := Uint16Array_set 0 0 (indices this) in
        let indices := Uint16Array_set 1 1 indices in
        let total := length points in
        let b :=
          fold_left (refresh_step total factor offset)
            (seq 1 (total - 1))
            {| b_uvs := uvs; b_colors := colors; b_indices := indices |} in
        {| super := {| _texture := _texture (super this);
                       dirty := true;
                       indexDirty := true;
                       containerUpdates := containerUpdates (super this) |};
           points := points;
           vertices := vertices this;
           uvs := b_uvs b;
           colors := b_colors b;
           indices := b_indices b;
           _ready := _ready this |}
    end.

(** *** The constructor *)

(** The assignments of the constructor.  [mesh] is the object as
    [super(texture)] leaves it; a new typed array is filled with zeros. *)
Definition allocate (mesh : Mesh) (points : list Point) : t :=
  {| super := mesh;
     points := points;
     vertices := replicate (length points * 4) (Fin 0);
     uvs := replicate (length points * 4) (Fin 0);
     colors := replicate (length points * 2) (Fin 0);
     indices := replicate (length points * 2) 0%Z;
     _ready := true |}.

Definition constructor (mesh : Mesh) (points : list Point) : t :=
  refresh (allocate mesh points).

(** *** updateTransform *)

(** The variables of [updateTransform].  Those declared without a value
    are [None] ([undefined]) until the loop assigns them. *)
Record Locals := {
  lastPoint : Point;
  nextPoint : option Point;
  perpX : num;
  perpY : num;
  l_vertices : list num;
  point : option Point;
  index : option nat;
  ratio : option num;
  perpLength : option num;
  num_ : option num
}.

(** One turn of [for (let i = 0; i < total; i++)].  [i] is below
    [points.length] and [i + 1] is read only when it is too, so both
    reads find a point. *)
Definition updateTransform_step (this : t) (total : nat)
    (l : Locals) (i : nat) : Locals :=
  let point := points this !!! i in
  let index := (i * 4)%nat in
  let nextPoint :=
    if (Z.of_nat i <? Z.of_nat (length (points this)) - 1)%Z
    then points this !!! (i + 1)%nat
    else point in
  let perpY := neg (sub (Fin (x nextPoint)) (Fin (x (lastPoint l)))) in
  let perpX := sub (Fin (y nextPoint)) (Fin (y (lastPoint l))) in
  let ratio :=
    mul (sub (Fin 1) (div (of_nat i) (sub (of_nat total) (Fin 1))))
        (Fin 10) in
  let ratio := if gt ratio (Fin 1) then Fin 1 else ratio in
  let perpLength := sqrt (add (mul perpX perpX) (mul perpY perpY)) in
  let num := div (Fin (height (_texture (super this)))) (Fin 2) in
  let perpX := div perpX perpLength in
  let perpY := div perpY perpLength in
  let perpX := mul perpX num in
  let perpY := mul perpY num in
  let vertices := l_vertices l in
  let vertices := Float32Array_set index (add (Fin (x point)) perpX) vertices in
  let vertices :=
    Float32Array_set (index + 1) (add (Fin (y point)) perpY) vertices in
  let vertices :=
    Float32Array_set (index + 2) (sub (Fin (x point)) perpX) vertices in
  let vertices :=
    Float32Array_set (index + 3) (sub (Fin (y point)) perpY) vertices in
  {| lastPoint := point;
     nextPoint := Some nextPoint;
     perpX := perpX;
     perpY := perpY;
     l_vertices := vertices;
     point := Some point;
     index := Some index;
     ratio := Some ratio;
     perpLength := Some perpLength;
     num_ := Some num |}.

(** Modelled from the spec: [containerUpdateTransform], the inherited
    world-transform composition step, which is not part of this file; it
    composes transforms and leaves the rope's buffers alone. *)
Definition containerUpdateTransform (m : Mesh) : Mesh :=
  {| _texture := _texture m; dirty := dirty m; indexDirty := indexDirty m;
     containerUpdates := S (containerUpdates m) |}.

(** The frame of locals before the loop. *)
Definition updateTransform_init (this : t) : Locals :=
  {| lastPoint := points this !!! 0%nat;
     nextPoint := None;
     perpX := Fin 0;
     perpY := Fin 0;
     l_vertices := vertices this;
     point := None;
     index := None;
     ratio := None;
     perpLength := None;
     num_ := None |}.

(** The frame of locals when the loop ends. *)
Definition updateTransform_loop (this : t) : Locals :=
  let total := length (points this) in
  fold_left (updateTransform_step this total) (seq 0 total)
    (updateTransform_init this).

Definition updateTransform (this : t) : t :=
  if (length (points this) <? 1)%nat then this
  else
    {| super := containerUpdateTransform (super this);
       points := points this;
       vertices := l_vertices (updateTransform_loop this);
       uvs := uvs this;
       colors := colors this;
       indices := indices this;
       _ready := _ready this |}.

(** *** The derivation without the taper ratio

    [updateTransform] with the statements that compute [ratio] taken
    out; the variable stays [undefined]. *)
Definition updateTransform_step_no_ratio (this : t)
    (l : Locals) (i : nat) : Locals :=
  let point := points this !!! i in
  let index := (i * 4)%nat in
  let nextPoint :=
    if (Z.of_nat i <? Z.of_nat (length (points this)) - 1)%Z
    then points this !!! (i + 1)%nat
    else point in
  let perpY := neg (sub (Fin (x nextPoint)) (Fin (x (lastPoint l)))) in
  let perpX := sub (Fin (y nextPoint)) (Fin (y (lastPoint l))) in
  let perpLength := sqrt (add (mul perpX perpX) (mul perpY perpY)) in
  let num := div (Fin (height (_texture (super this)))) (Fin 2) in
  let perpX := div perpX perpLength in
  let perpY := div perpY perpLength in
  let perpX := mul perpX num in
  let perpY := mul perpY num in
  let vertices := l_vertices l in
  let vertices := Float32Array_set index (add (Fin (x point)) perpX) vertices in
  let vertices :=
    Float32Array_set (index + 1) (add (Fin (y point)) perpY) vertices in
  let vertices :=
    Float32Array_set (index + 2) (sub (Fin (x point)) perpX) vertices in
  let vertices :=
    Float32Array_set (index + 3) (sub (Fin (y point)) perpY) vertices in
  {| lastPoint := point;
     nextPoint := Some nextPoint;
     perpX := perpX;
     perpY := perpY;
     l_vertices := vertices;
     point := Some point;
     index := Some index;
     ratio := ratio l;
     perpLength := Some perpLength;
     num_ := Some num |}.

Definition updateTransform_no_ratio (this : t) : t :=
  if (length (points this) <? 1)%nat then this
  else
    let total := length (points this) in
    {| super := containerUpdateTransform (super this);
       points := points this;
       vertices :=
         l_vertices
           (fold_left (updateTransform_step_no_ratio this) (seq 0 total)
              (updateTransform_init this));
       uvs := uvs this;
       colors := colors this;
       indices := indices this;
       _ready := _ready this |}.

(** Two frames of locals that differ at most in [ratio]. *)
Definition same_but_ratio (l l' : Locals) : Prop :=
  lastPoint l = lastPoint l' /\ nextPoint l = nextPoint l'
  /\ perpX l = perpX l' /\ perpY l = perpY l'
  /\ l_vertices l = l_vertices l' /\ point l = point l'
  /\ index l = index l' /\ perpLength l = perpLength l'
  /\ num_ l = num_ l'.

(** *** The loop of [updateTransform], turn by turn

    What turn [i] computes, as a function of the rope and of the value
    [lastPoint] has when the turn starts: the scaled normal left in
    [perpX] and [perpY], and the four numbers stored. *)
Definition perp (this : t) (last : Point) (i : nat) : num * num :=
  let l :=
    updateTransform_step this (length (points this))
      {| lastPoint := last; nextPoint := None; perpX := Fin 0;
         perpY := Fin 0; l_vertices := []; point := None; index := None;
         ratio := None; perpLength := None; num_ := None |} i in
  (perpX l, perpY l).

(** [lastPoint] when turn [i] starts: the point before [i], and the
    first point for the first turn. *)
Definition previous (this : t) (i : nat) : Point :=
  points this !!! (i - 1)%nat.

Definition cross_section (this : t) (i : nat) : list num :=
  let p := points this !!! i in
  let n := perp this (previous this i) i in
  [ add (Fin (x p)) (fst n); add (Fin (y p)) (snd n);
    sub (Fin (x p)) (fst n); sub (Fin (y p)) (snd n) ].

(** *** Example objects *)

Definition texture20 : Texture :=
  {| _uvs := Some {| x0 := 0; y0 := 0; x2 := 1; y2 := 1 |}; height := 20 |}.

(** A mesh as [Mesh]'s constructor leaves it for [texture20]. *)
Definition mesh20 : Mesh :=
  {| _texture := texture20; dirty := true; indexDirty := true;
     containerUpdates := 0 |}.

Definition three_points : list Point :=
  [ {| x := 0; y := 0 |}; {| x := 50; y := 0 |}; {| x := 100; y := 0 |} ].

(** 32769 points, one more than a [Uint16Array] can index in pairs. *)
Definition long_chain : list Point :=
  replicate (Z.to_nat 32769) {| x := 0; y := 0 |}.

(** *** _onTextureUpdate *)

(** [Mesh_onTextureUpdate] is [Mesh]'s [_onTextureUpdate], which acts on
    the inherited part of the object. *)
Definition _onTextureUpdate (Mesh_onTextureUpdate : Mesh -> Mesh) (this : t)
    : t :=
  let this :=
    {| super := Mesh_onTextureUpdate (super this);
       points := points this;
       vertices := vertices this;
       uvs := uvs this;
       colors := colors this;
       indices := indices this;
       _ready := _ready this |} in
  if _ready this then refresh this else this.

(** *** More on the turns of [updateTransform] *)

(** [nextPoint] in turn [i]: the point after [i], and the last point for
    the last turn. *)
Definition following (this : t) (i : nat) : Point :=
  if (Z.of_nat i <? Z.of_nat (length (points this)) - 1)%Z
  then points this !!! (i + 1)%nat
  else points this !!! i.

(** The rope with its points moved, as the owner of the point list does
    between two frames. *)
Definition with_points (pts : list Point) (this : t) : t :=
  {| super := super this; points := pts; vertices := vertices this;
     uvs := uvs this; colors := colors this; indices := indices this;
     _ready := _ready this |}.

Definition translate (dx dy : R) (p : Point) : Point :=
  {| x := x p + dx; y := y p + dy |}.

(** A bent chain: a corner at (3, 0). *)
Definition corner : list Point :=
  [ {| x := 0; y := 0 |}; {| x := 3; y := 0 |}; {| x := 3; y := 4 |} ].

(** A texture whose UV rectangle is not set yet. *)
Definition unresolved_mesh : Mesh :=
  {| _texture := {| _uvs := None; height := 20 |};
     dirty := false; indexDirty := false; containerUpdates := 0 |}.

End Rope.

(** * Properties of the particle container *)

Section ParticleContainer_properties.
Import JS ParticleContainer.
Local Open Scope Z_scope.

Lemma setProperties_array this p properties :
  _properties this = Some p ->
  exists p', setProperties properties this = Some (set_properties (Some p') this)
             /\ length p' = length p.
Proof.
  intros Hp. destruct properties as [m|]; simpl.
  - rewrite Hp. eexists. split; [reflexivity|].
    now rewrite !length_insert.
  - exists p. split; [|reflexivity].
    destruct this; simpl in *. now subst.
Qed.

(** The constructor returns, and stores the two sizes it computed. *)
Lemma constructor_sizes base maxSize properties batchSize :
  exists c,
    constructor base maxSize properties batchSize = Some c
    /\ _maxSize c = or_default maxSize 15000
    /\ _batchSize c =
         Z.min (Z.min (or_default batchSize 15000) maxBatchSize)
               (or_default maxSize 15000)
    /\ _bufferToUpdate c = 0
    /\ _glBuffers c = []
    /\ _buffers c = None
    /\ baseTexture c = None
    /\ super c = base.
Proof.
  unfold constructor.
  match goal with
  | |- context [setProperties _ ?c0] =>
      destruct (setProperties_array c0 [false; true; false; false; false]
                  properties eq_refl) as (p' & -> & _)
  end.
  eexists. split; [reflexivity|]. simpl.
  repeat split; try reflexivity.
  unfold maxBatchSize.
  destruct (Z.gtb_spec (or_default batchSize 15000) 16384);
    match goal with
    | |- context [(?a >? ?b)] => destruct (Z.gtb_spec a b)
    end; lia.
Qed.

Lemma or_default_nonzero a d : d <> 0 -> or_default a d <> 0.
Proof.
  intros Hd. destruct a as [n|]; simpl; [|assumption].
  destruct (Z.eqb_spec n 0); assumption.
Qed.

(** The batch size the constructor stores is never 0. *)
Lemma constructor_batchSize_nonzero base maxSize properties batchSize c :
  constructor base maxSize properties batchSize = Some c ->
  _batchSize c <> 0.
Proof.
  intros Hc.
  destruct (constructor_sizes base maxSize properties batchSize)
    as (c' & Hc' & _ & Hb & _).
  rewrite Hc in Hc'. injection Hc' as <-. rewrite Hb.
  pose proof (or_default_nonzero batchSize 15000).
  pose proof (or_default_nonzero maxSize 15000).
  unfold maxBatchSize. lia.
Qed.

(** C1, as the code has it: for a batch size above 16384 the stored
    batch size is the smaller of 16384 and the effective maximum size
    (the [maxSize] argument, or 15000 when it is omitted or 0).  It is
    16384 when that maximum is at least 16384, and the maximum itself
    (15000 with the default) below that. *)
Theorem batchSize_above_ceiling base maxSize properties batchSize :
  16384 < batchSize ->
  exists c,
    constructor base maxSize properties (Some batchSize) = Some c
    /\ _batchSize c = Z.min 16384 (or_default maxSize 15000)
    /\ (16384 <= or_default maxSize 15000 -> _batchSize c = 16384)
    /\ (or_default maxSize 15000 < 16384 ->
        _batchSize c = or_default maxSize 15000).
Proof.
  intros Hb.
  destruct (constructor_sizes base maxSize properties (Some batchSize))
    as (c & Hc & _ & Hsize & _).
  exists c. split; [assumption|].
  assert (or_default (Some batchSize) 15000 = batchSize) as Hd.
  { simpl. destruct (Z.eqb_spec batchSize 0); [lia | reflexivity]. }
  rewrite Hd in Hsize. unfold maxBatchSize in Hsize.
  repeat split; lia.
Qed.

Lemma batchSize_above_ceiling_witness :
  exists c,
    constructor fresh_container (Some 20000) None (Some 30000) = Some c
    /\ _batchSize c = 16384.
Proof.
  destruct (batchSize_above_ceiling fresh_container (Some 20000) None 30000)
    as (c & Hc & _ & Hceil & _); [lia|].
  exists c. split; [exact Hc|]. apply Hceil. simpl. lia.
Defined.

(** C1 fails with the default maximum size: a batch size of 20000 is
    above 16384, and the stored batch size is 15000. *)
Lemma batchSize_above_ceiling_default_maxSize :
  16384 < 20000
  /\ _batchSize <$> constructor fresh_container None None (Some 20000)
     = Some 15000
  /\ 15000 <> 16384.
Proof. split; [lia|]. split; [reflexivity | lia]. Qed.

(** C3, as the code has it: when [maxSize] is not 0 and [batchSize] is
    above it, the stored batch size is the smaller of [maxSize] and
    16384, hence [maxSize] itself whenever [maxSize] is at most 16384;
    with [maxSize = 10] and [batchSize = 20] it is 10. *)
Theorem batchSize_above_maxSize base maxSize properties batchSize :
  maxSize <> 0 ->
  maxSize < batchSize ->
  (exists c,
     constructor base (Some maxSize) properties (Some batchSize) = Some c
     /\ _batchSize c = Z.min maxSize 16384
     /\ (maxSize <= 16384 -> _batchSize c = maxSize))
  /\ _batchSize <$> constructor base (Some 10) properties (Some 20)
     = Some 10.
Proof.
  intros Hm Hb. split.
  - destruct (constructor_sizes base (Some maxSize) properties
                (Some batchSize)) as (c & Hc & _ & Hsize & _).
    exists c. split; [assumption|].
    assert (or_default (Some maxSize) 15000 = maxSize) as Hdm.
    { simpl. destruct (Z.eqb_spec maxSize 0); [lia | reflexivity]. }
    assert (maxSize < or_default (Some batchSize) 15000) as Hdb.
    { simpl. destruct (Z.eqb_spec batchSize 0); lia. }
    rewrite Hdm in Hsize. unfold maxBatchSize in Hsize.
    split; lia.
  - destruct (constructor_sizes base (Some 10) properties (Some 20))
      as (c & Hc & _ & Hsize & _).
    rewrite Hc. simpl. now rewrite Hsize.
Qed.

Lemma batchSize_above_maxSize_witness :
  exists c,
    constructor fresh_container (Some 10) None (Some 20) = Some c
    /\ _batchSize c = 10.
Proof.
  destruct (batchSize_above_maxSize fresh_container 10 None 20)
    as [(c & Hc & _ & Hmax) _]; [lia | lia |].
  exists c. split; [exact Hc|]. apply Hmax. lia.
Defined.

(** C3 fails above the ceiling: a batch size of 30000 is above a maximum
    size of 20000, and the stored batch size is 16384.  It also fails
    for a maximum size of 0, which stands for the default: a batch size
    of 5 is kept. *)
Lemma batchSize_above_large_maxSize :
  (20000 < 30000
   /\ _batchSize <$>
        constructor fresh_container (Some 20000) None (Some 30000)
      = Some 16384
   /\ 16384 <> 20000)
  /\ (0 < 5
      /\ _batchSize <$> constructor fresh_container (Some 0) None (Some 5)
         = Some 5
      /\ 5 <> 0).
Proof. repeat split; lia. Qed.

(** C4: [onChildrenChange k] leaves the dirty floor at the smaller of
    its previous value and [floor (k / batchSize)], so it never raises
    it; and after [onChildrenChange k2] then [onChildrenChange k1] the
    dirty floor is at most [floor (k1 / batchSize)], in particular when
    [k1 < k2]. *)
Theorem onChildrenChange_lowers this k :
  _batchSize this <> 0 ->
  _bufferToUpdate (onChildrenChange k this)
    = Z.min (_bufferToUpdate this) (k / _batchSize this)
  /\ _bufferToUpdate (onChildrenChange k this) <= _bufferToUpdate this
  /\ _batchSize (onChildrenChange k this) = _batchSize this
  /\ forall k1 k2,
       k1 < k2 ->
       _bufferToUpdate (onChildrenChange k1 (onChildrenChange k2 this))
         <= k1 / _batchSize this.
Proof.
  intros _.
  assert (forall j c,
    _bufferToUpdate (onChildrenChange j c)
      = Z.min (_bufferToUpdate c) (j / _batchSize c)
    /\ _batchSize (onChildrenChange j c) = _batchSize c) as Hstep.
  { intros j c. unfold onChildrenChange.
    destruct (Z.ltb_spec (j / _batchSize c) (_bufferToUpdate c));
      simpl; split; try reflexivity; lia. }
  destruct (Hstep k this) as [Hk Hb]. repeat split; try lia; try assumption.
  intros k1 k2 _.
  destruct (Hstep k2 this) as [_ Hb2].
  destruct (Hstep k1 (onChildrenChange k2 this)) as [-> _].
  rewrite Hb2. lia.
Qed.

Lemma onChildrenChange_lowers_witness :
  exists c,
    constructor fresh_container None None (Some 100) = Some c
    /\ _bufferToUpdate (onChildrenChange 250 (set_bufferToUpdate 7 c)) = 2.
Proof.
  destruct (constructor_sizes fresh_container None None (Some 100))
    as (c & Hc & _ & Hsize & _).
  exists c. split; [exact Hc|].
  destruct (onChildrenChange_lowers (set_bufferToUpdate 7 c) 250)
    as [-> _]; simpl; rewrite Hsize; [discriminate | reflexivity].
Defined.

(** C7: on a container that still has its five flags, [setProperties]
    returns; every flag whose key is absent from the argument keeps its
    value, and nothing but the flags changes.  With the one key [scale]
    set to [true], the scale flag becomes [true] and the position,
    rotation, uvs and alpha flags keep their values.  Without an
    argument nothing changes. *)
Theorem setProperties_frame this p (properties : gmap string value) :
  _properties this = Some p ->
  length p = 5%nat ->
  (exists p',
     setProperties (Some properties) this
       = Some (set_properties (Some p') this)
     /\ length p' = 5%nat
     /\ (properties !! "scale" = None -> p' !! 0%nat = p !! 0%nat)
     /\ (properties !! "position" = None -> p' !! 1%nat = p !! 1%nat)
     /\ (properties !! "rotation" = None -> p' !! 2%nat = p !! 2%nat)
     /\ (properties !! "uvs" = None -> p' !! 3%nat = p !! 3%nat)
     /\ (properties !! "alpha" = None -> p' !! 4%nat = p !! 4%nat))
  /\ setProperties (Some {[ "scale" := VBool true ]}) this
     = Some (set_properties (Some (<[0%nat := true]> p)) this)
  /\ setProperties None this = Some this.
Proof.
  intros Hp Hlen.
  destruct p as [|f0 [|f1 [|f2 [|f3 [|f4 [|]]]]]]; try discriminate.
  split; [|split].
  - unfold setProperties. rewrite Hp. eexists.
    split; [reflexivity|]. split; [reflexivity|].
    unfold flag. simpl.
    repeat split; intros ->; reflexivity.
  - unfold setProperties. rewrite Hp. reflexivity.
  - reflexivity.
Qed.

Lemma setProperties_frame_witness :
  exists c c',
    constructor fresh_container None None None = Some c
    /\ setProperties (Some {[ "scale" := VBool true ]}) c = Some c'
    /\ _properties c' = Some [true; true; false; false; false].
Proof.
  destruct (constructor_sizes fresh_container None None None)
    as (c & Hc & _).
  exists c. eexists. split; [exact Hc|].
  injection Hc as <-.
  match goal with
  | |- setProperties _ ?c0 = _ /\ _ =>
      destruct (setProperties_frame c0 [false; true; false; false; false]
                  ∅ eq_refl eq_refl) as (_ & Hscale & _)
  end.
  split; [exact Hscale | reflexivity].
Defined.

(** C2, on the code: the buffer groups of a container live in
    [_glBuffers], and [destroy] walks [_buffers], a field nothing in the
    file ever fills.  After two groups were allocated, [destroy] calls
    [destroy()] on neither of them and leaves [_glBuffers] as it was; it
    sets the flags and [_buffers] to [null].  A second call changes
    nothing of that. *)
Theorem destroy_leaves_glBuffers (super_destroy : Container -> Container) :
  exists c,
    constructor fresh_container None None None = Some c
    /\ snd (destroy super_destroy (allocate [1; 2]%nat c)) = []
    /\ _glBuffers (fst (destroy super_destroy (allocate [1; 2]%nat c)))
       = [1; 2]%nat
    /\ _properties (fst (destroy super_destroy (allocate [1; 2]%nat c)))
       = None
    /\ _buffers (fst (destroy super_destroy (allocate [1; 2]%nat c)))
       = None
    /\ snd (destroy super_destroy
              (fst (destroy super_destroy (allocate [1; 2]%nat c)))) = []
    /\ _glBuffers
         (fst (destroy super_destroy
                 (fst (destroy super_destroy (allocate [1; 2]%nat c)))))
       = [1; 2]%nat.
Proof.
  eexists. split; [reflexivity|]. repeat split.
Qed.

Lemma run_listeners_bufferToUpdate (ls : list Listener) c :
  _bufferToUpdate (fold_left (fun c l => run_listener l c) ls c)
    = match ls with
      | [] => _bufferToUpdate c
      | _ :: _ => Z.min (_bufferToUpdate c) 0
      end.
Proof.
  revert c. induction ls as [|l ls IH]; intros c; [reflexivity|].
  simpl. rewrite IH. destruct l. simpl.
  assert (_bufferToUpdate (onChildrenChange 0 c)
          = Z.min (_bufferToUpdate c) 0) as ->.
  { unfold onChildrenChange. rewrite Zdiv_0_l.
    destruct (Z.ltb_spec 0 (_bufferToUpdate c)); simpl; lia. }
  destruct ls; lia.
Qed.

(** C9: the first GPU render of a visible, renderable container with
    positive world alpha and a first child returns without error and
    makes the two calls on the renderer.  It captures the base texture of
    that child: the [baseTexture] field of the container, empty before,
    holds it afterwards, and the rest of the container is as it was.
    When the base texture has loaded, nothing is
    registered.  When it has not, the callback is registered on it, once;
    when the 'update' event is then fired, on whatever state the
    container is in by then, the dirty floor becomes the smaller of its
    value and 0, which is 0 unless it was negative, and the callback is
    gone. *)
Theorem renderWebGL_first_render this s child bt :
  visible (super this) = true ->
  QArith_base.Qlt (QArith_base.Qmake 0 1) (worldAlpha (super this)) ->
  renderable (super this) = true ->
  children (super this) !! 0%nat = Some child ->
  baseTexture this = None ->
  textures s !! t_baseTexture (_texture child) = Some bt ->
  exists this' s',
    renderWebGL this s = Some (this', s')
    /\ baseTexture this' = Some (t_baseTexture (_texture child))
    /\ this' = set_baseTexture (Some (t_baseTexture (_texture child))) this
    /\ (super this' = super this
        /\ _properties this' = _properties this
        /\ _maxSize this' = _maxSize this
        /\ _batchSize this' = _batchSize this
        /\ _glBuffers this' = _glBuffers this
        /\ _buffers this' = _buffers this
        /\ _bufferToUpdate this' = _bufferToUpdate this)
    /\ calls s' = calls s ++ [setObjectRenderer_particle; particle_render]
    /\ (hasLoaded bt = true -> textures s' = textures s)
    /\ (hasLoaded bt = false ->
        textures s' =
          <[t_baseTexture (_texture child) :=
              {| hasLoaded := false;
                 once_update := once_update bt ++ [invalidate_first_batch] |}]>
            (textures s)
        /\ forall c,
             _batchSize c <> 0 ->
             _bufferToUpdate
               (fst (emit_update (t_baseTexture (_texture child)) c s'))
               = Z.min (_bufferToUpdate c) 0
             /\ (0 <= _bufferToUpdate c ->
                 _bufferToUpdate
                   (fst (emit_update (t_baseTexture (_texture child)) c s'))
                 = 0)
             /\ textures
                  (snd (emit_update (t_baseTexture (_texture child)) c s'))
                  !! t_baseTexture (_texture child)
                = Some {| hasLoaded := false; once_update := [] |}).
Proof.
  intros Hvis Halpha Hren Hchild Hbase Hbt.
  assert (QArith_base.Qle_bool (worldAlpha (super this))
            (QArith_base.Qmake 0 1) = false) as Hq.
  { destruct (QArith_base.Qle_bool _ _) eqn:E; [|reflexivity].
    apply QArith_base.Qle_bool_iff in E.
    now apply QArith_base.Qlt_not_le in Halpha. }
  assert ((length (children (super this)) =? 0)%nat = false) as Hlen.
  { destruct (children (super this)); [discriminate | reflexivity]. }
  unfold renderWebGL.
  rewrite Hvis, Hq, Hlen, Hren, Hbase. simpl.
  rewrite Hchild. simpl. rewrite Hbt. simpl.
  destruct (hasLoaded bt) eqn:Hloaded; simpl.
  - do 2 eexists. split; [reflexivity|].
    split; [reflexivity|]. split; [reflexivity|].
    split; [repeat split|]. simpl.
    split; [now rewrite <- app_assoc|].
    split; [reflexivity | discriminate].
  - do 2 eexists. split; [reflexivity|].
    split; [reflexivity|]. split; [reflexivity|].
    split; [repeat split|]. simpl.
    split; [now rewrite <- app_assoc|].
    split; [discriminate|]. intros _. rewrite Hloaded.
    split; [reflexivity|].
    intros c _. unfold emit_update. simpl.
    rewrite lookup_insert_eq. simpl.
    rewrite run_listeners_bufferToUpdate.
    assert (Z.min (_bufferToUpdate c) 0
            = match once_update bt ++ [invalidate_first_batch] with
              | [] => _bufferToUpdate c
              | _ :: _ => Z.min (_bufferToUpdate c) 0
              end) as <- by (now destruct (once_update bt)).
    split; [reflexivity|]. split; [lia|].
    now rewrite lookup_insert_eq, Hloaded.
Qed.

Lemma renderWebGL_first_render_witness :
  exists c c' s',
    constructor one_child None None None = Some c
    /\ baseTexture c = None
    /\ renderWebGL c loading_store = Some (c', s')
    /\ baseTexture c' = Some 0%nat
    /\ _bufferToUpdate (fst (emit_update 0%nat (set_bufferToUpdate 3 c) s'))
       = 0.
Proof.
  destruct (constructor_sizes one_child None None None)
    as (c & Hc & _ & Hsize & _ & _ & _ & Hbase & Hsuper).
  destruct (renderWebGL_first_render c loading_store
              {| _texture := {| t_baseTexture := 0%nat |} |}
              {| hasLoaded := false; once_update := [] |})
    as (c' & s' & Hrender & Hcaptured & _ & _ & _ & _ & Hpending);
    try (rewrite Hsuper; reflexivity); try reflexivity; try assumption.
  exists c, c', s'. split; [exact Hc|]. split; [exact Hbase|].
  split; [exact Hrender|]. split; [exact Hcaptured|].
  destruct (Hpending eq_refl) as [_ Hfire].
  destruct (Hfire (set_bufferToUpdate 3 c)) as (_ & Hzero & _).
  - simpl. rewrite Hsize. discriminate.
  - apply Hzero. simpl. lia.
Defined.

(** ** More on the constructor and the flags *)

(** The constructor always returns.  The batch size it stores is the
    requested one (15000 when omitted or 0) cut to 16384 and then to the
    maximum size (15000 when omitted or 0): it is never 0, never above
    16384 and never above the stored maximum size. *)
Theorem constructor_batchSize_bounds base maxSize properties batchSize :
  exists c,
    constructor base maxSize properties batchSize = Some c
    /\ _maxSize c = or_default maxSize 15000
    /\ _batchSize c =
         Z.min (Z.min (or_default batchSize 15000) 16384) (_maxSize c)
    /\ _maxSize c <> 0
    /\ _batchSize c <> 0
    /\ _batchSize c <= 16384
    /\ _batchSize c <= _maxSize c.
Proof.
  destruct (constructor_sizes base maxSize properties batchSize)
    as (c & Hc & Hm & Hb & _).
  exists c. unfold maxBatchSize in Hb. rewrite Hm.
  pose proof (or_default_nonzero batchSize 15000).
  pose proof (or_default_nonzero maxSize 15000).
  repeat split; try assumption; lia.
Qed.

(** What [setProperties] leaves in the five flags: a key that is present
    sets its flag to the truthiness of its value, whatever the value is. *)
Lemma setProperties_flags this f0 f1 f2 f3 f4 (properties : gmap string value) :
  _properties this = Some [f0; f1; f2; f3; f4] ->
  setProperties (Some properties) this
  = Some (set_properties
            (Some [ from_option truthy f0 (properties !! "scale");
                    from_option truthy f1 (properties !! "position");
                    from_option truthy f2 (properties !! "rotation");
                    from_option truthy f3 (properties !! "uvs");
                    from_option truthy f4 (properties !! "alpha") ]) this).
Proof.
  intros Hp. unfold setProperties. rewrite Hp. unfold flag. simpl.
  destruct (properties !! "scale"), (properties !! "position"),
    (properties !! "rotation"), (properties !! "uvs"),
    (properties !! "alpha"); reflexivity.
Qed.



(** The flags of a new container: position is dynamic and the four others
    static, unless the properties argument says otherwise for a key. *)
Theorem constructor_flags base maxSize (properties : gmap string value)
    batchSize :
  exists c,
    constructor base maxSize (Some properties) batchSize = Some c
    /\ _properties c
       = Some [ from_option truthy false (properties !! "scale");
                from_option truthy true (properties !! "position");
                from_option truthy false (properties !! "rotation");
                from_option truthy false (properties !! "uvs");
                from_option truthy false (properties !! "alpha") ]
    /\ (_properties <$> constructor base maxSize None batchSize)
       = Some (Some [false; true; false; false; false]).
Proof.
  unfold constructor.
  match goal with
  | |- context [setProperties (Some properties) ?c0] =>
      rewrite (setProperties_flags c0 false true false false false
                 properties eq_refl)
  end.
  eexists. split; [reflexivity|]. split; reflexivity.
Qed.

(** Two calls of [setProperties] in a row act as one call with the two
    objects merged, the later one winning on the keys they share.  In
    particular a call repeated changes nothing more. *)
Theorem setProperties_twice this p (p1 p2 : gmap string value) :
  _properties this = Some p ->
  length p = 5%nat ->
  (setProperties (Some p1) this ≫= setProperties (Some p2))
  = setProperties (Some (p2 ∪ p1)) this
  /\ (setProperties (Some p1) this ≫= setProperties (Some p1))
     = setProperties (Some p1) this.
Proof.
  intros Hp Hlen.
  destruct p as [|f0 [|f1 [|f2 [|f3 [|f4 [|]]]]]]; try discriminate.
  assert (forall q1 q2 : gmap string value,
    (setProperties (Some q1) this ≫= setProperties (Some q2))
    = setProperties (Some (q2 ∪ q1)) this) as Hmerge.
  { intros q1 q2.
    rewrite (setProperties_flags this f0 f1 f2 f3 f4 q1 Hp).
    rewrite (setProperties_flags this f0 f1 f2 f3 f4 (q2 ∪ q1) Hp).
    cbn [mbind option_bind].
    erewrite setProperties_flags by reflexivity.
    unfold set_properties. simpl. rewrite !lookup_union.
    assert (forall f (a b : option value),
      from_option truthy f (b ∪ a)
      = from_option truthy (from_option truthy f a) b) as Hflag
      by (intros f [] []; reflexivity).
    now rewrite !Hflag. }
  split; [apply Hmerge|].
  rewrite Hmerge. do 2 f_equal. apply map_eq. intros k.
  rewrite lookup_union. destruct (p1 !! k); reflexivity.
Qed.

Lemma setProperties_twice_witness :
  exists c,
    constructor fresh_container None None None = Some c
    /\ _properties
         <$> (setProperties (Some {[ "scale" := VBool true ]}) c
              ≫= setProperties (Some {[ "scale" := VBool false ]}))
       = Some (Some [false; true; false; false; false]).
Proof.
  destruct (constructor_sizes fresh_container None None None) as (c & Hc & _).
  exists c. split; [exact Hc|]. injection Hc as <-.
  match goal with
  | |- context [setProperties _ ?c0 ≫= _] =>
      destruct (setProperties_twice c0 [false; true; false; false; false]
                  {[ "scale" := VBool true ]} {[ "scale" := VBool false ]}
                  eq_refl eq_refl) as [-> _]
  end.
  reflexivity.
Defined.

(** ** More on [destroy] *)

(** [destroy] calls [destroy()] on each buffer of [_buffers], once and in
    order, and sets [_properties] and [_buffers] to [null]; the sizes, the
    dirty floor, the captured base texture and [_glBuffers] are left as
    they are.  A second [destroy] has no buffer left to release. *)
Theorem destroy_releases_buffers (super_destroy : Container -> Container)
    this bs :
  _buffers this = Some bs ->
  snd (destroy super_destroy this) = bs
  /\ _properties (fst (destroy super_destroy this)) = None
  /\ _buffers (fst (destroy super_destroy this)) = None
  /\ _glBuffers (fst (destroy super_destroy this)) = _glBuffers this
  /\ _maxSize (fst (destroy super_destroy this)) = _maxSize this
  /\ _batchSize (fst (destroy super_destroy this)) = _batchSize this
  /\ _bufferToUpdate (fst (destroy super_destroy this)) = _bufferToUpdate this
  /\ baseTexture (fst (destroy super_destroy this)) = baseTexture this
  /\ super (fst (destroy super_destroy this)) = super_destroy (super this)
  /\ snd (destroy super_destroy (fst (destroy super_destroy this))) = [].
Proof.
  intros Hb. unfold destroy. simpl. rewrite Hb. repeat split.
Qed.

Lemma destroy_releases_buffers_witness :
  exists c,
    constructor fresh_container None None None = Some c
    /\ snd (destroy (fun b => b) (set_buffers (Some [4; 5; 6]%nat) c))
       = [4; 5; 6]%nat.
Proof.
  destruct (constructor_sizes fresh_container None None None) as (c & Hc & _).
  exists c. split; [exact Hc|].
  apply (destroy_releases_buffers (fun b => b)
           (set_buffers (Some [4; 5; 6]%nat) c)).
  reflexivity.
Defined.

(** After [destroy] the flags are gone: [setProperties] with an object
    throws a [TypeError], and [setProperties] without an argument still
    returns and changes nothing. *)
Theorem setProperties_after_destroy (super_destroy : Container -> Container)
    this (properties : gmap string value) :
  setProperties (Some properties) (fst (destroy super_destroy this)) = None
  /\ setProperties None (fst (destroy super_destroy this))
     = Some (fst (destroy super_destroy this)).
Proof. split; reflexivity. Qed.

(** ** More on the dirty floor *)

Lemma set_bufferToUpdate_same c : set_bufferToUpdate (_bufferToUpdate c) c = c.
Proof. now destruct c. Qed.

Lemma onChildrenChange_min k c :
  onChildrenChange k c
  = set_bufferToUpdate (Z.min (k / _batchSize c) (_bufferToUpdate c)) c.
Proof.
  unfold onChildrenChange.
  destruct (Z.ltb_spec (k / _batchSize c) (_bufferToUpdate c)).
  - now rewrite Z.min_l by lia.
  - rewrite Z.min_r by lia. now rewrite set_bufferToUpdate_same.
Qed.

Lemma foldr_min_start (u v : Z) (l : list Z) :
  foldr Z.min (Z.min u v) l = Z.min u (foldr Z.min v l).
Proof. induction l as [|w l IH]; simpl; [reflexivity|]. rewrite IH. lia. Qed.

(** Any number of notifications, in any order: the dirty floor ends at the
    smallest of its previous value and the batch indices of the indices
    notified, and nothing else changes. *)
Theorem onChildrenChange_many this (ks : list Z) :
  _batchSize this <> 0 ->
  fold_left (fun c k => onChildrenChange k c) ks this
  = set_bufferToUpdate
      (foldr Z.min (_bufferToUpdate this)
         ((fun k => k / _batchSize this) <$> ks)) this
  /\ forall ks',
       ks ≡ₚ ks' ->
       fold_left (fun c k => onChildrenChange k c) ks' this
       = fold_left (fun c k => onChildrenChange k c) ks this.
Proof.
  intros _.
  assert (forall l c,
    fold_left (fun c k => onChildrenChange k c) l c
    = set_bufferToUpdate
        (foldr Z.min (_bufferToUpdate c) ((fun k => k / _batchSize c) <$> l))
        c) as Hfold.
  { induction l as [|k l IH]; intros c; simpl.
    - now rewrite set_bufferToUpdate_same.
    - rewrite IH, onChildrenChange_min. unfold set_bufferToUpdate. simpl.
      f_equal. apply foldr_min_start. }
  split; [apply Hfold|].
  intros ks' Hperm. rewrite !Hfold. f_equal.
  induction Hperm as [|x l l' _ IH|x y l|l l' l'' _ IH1 _ IH2];
    rewrite ?fmap_cons; cbn [foldr].
  - reflexivity.
  - now rewrite IH.
  - lia.
  - now rewrite IH2, IH1.
Qed.

Lemma onChildrenChange_many_witness :
  exists c,
    constructor fresh_container None None (Some 100) = Some c
    /\ _bufferToUpdate
         (fold_left (fun c k => onChildrenChange k c) [950; 420; 730]
            (set_bufferToUpdate 12 c)) = 4.
Proof.
  destruct (constructor_sizes fresh_container None None (Some 100))
    as (c & Hc & _ & Hsize & _).
  exists c. split; [exact Hc|].
  destruct (onChildrenChange_many (set_bufferToUpdate 12 c) [950; 420; 730])
    as [-> _]; simpl; rewrite Hsize; [discriminate | reflexivity].
Defined.

(** With a positive batch size, a notification changes the container
    exactly when the index lies before the first dirty batch, that is
    below [dirty floor * batch size]; a change in or after the first dirty
    batch is absorbed. *)
Theorem onChildrenChange_absorbed this k :
  0 < _batchSize this ->
  (_bufferToUpdate this * _batchSize this <= k ->
   onChildrenChange k this = this)
  /\ (k < _bufferToUpdate this * _batchSize this ->
      _bufferToUpdate (onChildrenChange k this) = k / _batchSize this
      /\ k / _batchSize this < _bufferToUpdate this).
Proof.
  intros Hb. unfold onChildrenChange. split; intros Hk.
  - assert (_bufferToUpdate this <= k / _batchSize this)
      by (apply Z.div_le_lower_bound; lia).
    destruct (Z.ltb_spec (k / _batchSize this) (_bufferToUpdate this));
      [lia | reflexivity].
  - assert (k / _batchSize this < _bufferToUpdate this)
      by (apply Z.div_lt_upper_bound; lia).
    destruct (Z.ltb_spec (k / _batchSize this) (_bufferToUpdate this));
      [split; [reflexivity | assumption] | lia].
Qed.

Lemma onChildrenChange_absorbed_witness :
  exists c,
    constructor fresh_container None None (Some 100) = Some c
    /\ onChildrenChange 350 (set_bufferToUpdate 3 c) = set_bufferToUpdate 3 c
    /\ _bufferToUpdate (onChildrenChange 299 (set_bufferToUpdate 3 c)) = 2.
Proof.
  destruct (constructor_sizes fresh_container None None (Some 100))
    as (c & Hc & _ & Hsize & _).
  exists c. split; [exact Hc|].
  destruct (onChildrenChange_absorbed (set_bufferToUpdate 3 c) 350)
    as [Hkeep _]; [simpl; rewrite Hsize; reflexivity|].
  destruct (onChildrenChange_absorbed (set_bufferToUpdate 3 c) 299)
    as [_ Hlower]; [simpl; rewrite Hsize; reflexivity|].
  split.
  - apply Hkeep. simpl. rewrite Hsize. discriminate.
  - destruct Hlower as [-> _]; simpl; rewrite Hsize; reflexivity.
Defined.

(** ** More on [renderWebGL] *)

(** A container that is invisible, fully transparent, empty or not
    renderable is not rendered: no base texture is captured, no callback
    is registered and the renderer is not called. *)
Theorem renderWebGL_skips this s :
  visible (super this) = false
  \/ QArith_base.Qle (worldAlpha (super this)) (QArith_base.Qmake 0 1)
  \/ children (super this) = []
  \/ renderable (super this) = false ->
  renderWebGL this s = Some (this, s).
Proof.
  intros H. unfold renderWebGL.
  destruct H as [Hv | [Ha | [Hc | Hr]]].
  - now rewrite Hv.
  - apply QArith_base.Qle_bool_iff in Ha. rewrite Ha.
    now rewrite orb_true_r.
  - rewrite Hc. cbn [length Nat.eqb]. now rewrite orb_true_r.
  - rewrite Hr. cbn [negb]. now rewrite orb_true_r.
Qed.

Lemma renderWebGL_skips_witness :
  exists c,
    constructor fresh_container None None None = Some c
    /\ renderWebGL c loading_store = Some (c, loading_store).
Proof.
  destruct (constructor_sizes fresh_container None None None)
    as (c & Hc & _ & _ & _ & _ & _ & _ & Hsuper).
  exists c. split; [exact Hc|].
  apply renderWebGL_skips. right. right. left. now rewrite Hsuper.
Defined.

(** Once a base texture is captured it is kept: a later render reads
    neither the children's textures nor the store, registers no further
    callback, and only makes the two calls on the renderer.  So rendering
    twice while the texture loads leaves a single callback. *)
Theorem renderWebGL_captured this s b :
  visible (super this) = true ->
  QArith_base.Qlt (QArith_base.Qmake 0 1) (worldAlpha (super this)) ->
  renderable (super this) = true ->
  children (super this) <> [] ->
  baseTexture this = Some b ->
  renderWebGL this s
  = Some (this, call particle_render (call setObjectRenderer_particle s)).
Proof.
  intros Hvis Halpha Hren Hchildren Hbase.
  assert (QArith_base.Qle_bool (worldAlpha (super this))
            (QArith_base.Qmake 0 1) = false) as Hq.
  { destruct (QArith_base.Qle_bool _ _) eqn:E; [|reflexivity].
    apply QArith_base.Qle_bool_iff in E.
    now apply QArith_base.Qlt_not_le in Halpha. }
  unfold renderWebGL. rewrite Hvis, Hq, Hren, Hbase.
  destruct (children (super this)); [contradiction|]. reflexivity.
Qed.

Lemma renderWebGL_captured_witness :
  exists c c1 s1 s2,
    constructor one_child None None None = Some c
    /\ renderWebGL c loading_store = Some (c1, s1)
    /\ renderWebGL c1 s1 = Some (c1, s2)
    /\ once_update <$> textures s2 !! 0%nat = Some [invalidate_first_batch].
Proof.
  destruct (constructor_sizes one_child None None None)
    as (c & Hc & _ & _ & _ & _ & _ & Hbase & Hsuper).
  exists c. do 3 eexists. split; [exact Hc|].
  split.
  { unfold renderWebGL. rewrite Hsuper, Hbase. reflexivity. }
  split.
  { apply (renderWebGL_captured _ _ 0%nat); simpl; rewrite ?Hsuper;
      try reflexivity; discriminate. }
  reflexivity.
Defined.

End ParticleContainer_properties.

(** * Properties of the canvas rendering *)

Section Canvas_properties.
Import QArith_base Canvas.

Variable transform : Matrix.
Variable updated_worldAlpha : Q.
Variable child_worldTransform : Sprite.t -> Matrix.
Variable this : Container.
Variable renderer : Renderer.

Abbreviation child_ops :=
  (renderCanvas_child transform updated_worldAlpha child_worldTransform
     this renderer).
Abbreviation loop :=
  (renderCanvas_loop transform updated_worldAlpha child_worldTransform
     this renderer).

Lemma loop_cons r ops child cs :
  loop (r, ops) (child :: cs)
  = loop (fst (child_ops r child), ops ++ snd (child_ops r child)) cs.
Proof.
  unfold renderCanvas_loop. simpl. now destruct (child_ops r child).
Qed.

(** The operations made so far do not steer the loop. *)
Lemma loop_from r ops cs :
  loop (r, ops) cs = (fst (loop (r, []) cs), ops ++ snd (loop (r, []) cs)).
Proof.
  revert r ops. induction cs as [|child cs IH]; intros r ops.
  - simpl. now rewrite app_nil_r.
  - rewrite !loop_cons, (IH _ (ops ++ _)), (IH _ ([] ++ _)). simpl.
    now rewrite app_assoc.
Qed.

Lemma child_ops_invisible r child :
  Sprite.visible child = false -> child_ops r child = (r, []).
Proof. intros H. unfold renderCanvas_child. now rewrite H. Qed.

(** What a visible child adds: its alpha, a matrix or none, its image. *)
Lemma child_ops_visible r child :
  Sprite.visible child = true ->
  exists src dst,
    child_ops r child
    = (if unrotated child then false else true,
       set_globalAlpha (updated_worldAlpha * Sprite.alpha child)
       :: (if unrotated child
           then if r then [setTransform (container_matrix transform renderer)]
                else []
           else [setTransform
                   (child_matrix (child_worldTransform child) renderer)])
       ++ [drawImage (source (baseTexture (Sprite.texture child))) src dst]).
Proof.
  intros H. unfold renderCanvas_child, child_matrix, container_matrix.
  rewrite H. simpl.
  destruct (unrotated child), r, (roundPixels renderer);
    do 2 eexists; reflexivity.
Qed.

Lemma not_skipped :
  visible this = true ->
  (0 < worldAlpha this)%Q ->
  renderable this = true ->
  children this <> [] ->
  negb (visible this) || Qle_bool (worldAlpha this) 0
  || (length (children this) =? 0)%nat || negb (renderable this) = false.
Proof.
  intros Hv Ha Hr Hc. rewrite Hv, Hr.
  destruct (Qle_bool (worldAlpha this) 0) eqn:E.
  - apply Qle_bool_iff in E. now apply Qlt_not_le in Ha.
  - destruct (children this); [contradiction | reflexivity].
Qed.

(** A container that is invisible, fully transparent, empty or not
    renderable makes no operation on the context at all. *)
Theorem renderCanvas_skips :
  visible this = false
  \/ (worldAlpha this <= 0)%Q
  \/ children this = []
  \/ renderable this = false ->
  renderCanvas transform updated_worldAlpha child_worldTransform this renderer = [].
Proof.
  intros H. unfold renderCanvas.
  destruct H as [Hv | [Ha | [Hc | Hr]]].
  - now rewrite Hv.
  - apply Qle_bool_iff in Ha. rewrite Ha. now rewrite orb_true_r.
  - rewrite Hc. cbn [length Nat.eqb]. now rewrite orb_true_r.
  - rewrite Hr. cbn [negb]. now rewrite orb_true_r.
Qed.

Lemma loop_images r cs :
  images (snd (loop (r, []) cs))
  = (fun child => source (baseTexture (Sprite.texture child)))
      <$> List.filter Sprite.visible cs
  /\ alphas (snd (loop (r, []) cs))
     = (fun child => updated_worldAlpha * Sprite.alpha child)%Q
         <$> List.filter Sprite.visible cs.
Proof.
  revert r. induction cs as [|child cs IH]; intros r; [split; reflexivity|].
  rewrite loop_cons, loop_from. cbn [snd List.filter].
  unfold images, alphas in *. rewrite !omap_app.
  destruct (Sprite.visible child) eqn:Hv.
  - destruct (child_ops_visible r child Hv) as (src & dst & ->).
    cbn [fst snd]. destruct (IH (if unrotated child then false else true))
      as [-> ->].
    destruct (unrotated child), r; split; reflexivity.
  - rewrite (child_ops_invisible r child Hv). cbn [fst snd].
    destruct (IH r) as [-> ->]. split; reflexivity.
Qed.

(** A container that is rendered draws one image per visible child, in
    the order of the list.  It sets the alpha to the world alpha it has on
    entry first and then, for each visible child in turn, to the world
    alpha as [displayObjectUpdateTransform] has recomputed it, times the
    alpha of the child. *)
Theorem renderCanvas_draws :
  visible this = true ->
  (0 < worldAlpha this)%Q ->
  renderable this = true ->
  children this <> [] ->
  images (renderCanvas transform updated_worldAlpha child_worldTransform this renderer)
  = (fun child => source (baseTexture (Sprite.texture child)))
      <$> List.filter Sprite.visible (children this)
  /\ alphas (renderCanvas transform updated_worldAlpha child_worldTransform this renderer)
     = worldAlpha this
       :: ((fun child => updated_worldAlpha * Sprite.alpha child)%Q
             <$> List.filter Sprite.visible (children this)).
Proof.
  intros Hv Ha Hr Hc. unfold renderCanvas.
  rewrite (not_skipped Hv Ha Hr Hc). cbv zeta.
  rewrite loop_from. cbn [snd].
  destruct (loop_images true (children this)) as [Hi Hal].
  unfold images, alphas in *. rewrite !omap_app, Hi, Hal.
  destruct (decide _); split; reflexivity.
Qed.

Lemma loop_filter r ops cs :
  loop (r, ops) (List.filter Sprite.visible cs) = loop (r, ops) cs.
Proof.
  revert r ops. induction cs as [|child cs IH]; intros r ops; [reflexivity|].
  cbn [List.filter]. destruct (Sprite.visible child) eqn:Hv.
  - rewrite !loop_cons. apply IH.
  - rewrite loop_cons, (child_ops_invisible r child Hv). cbn [fst snd].
    rewrite app_nil_r. apply IH.
Qed.

(** Invisible children leave no trace: as long as one child is visible,
    the container makes the same operations as the container without its
    invisible children. *)
Theorem renderCanvas_visible_only :
  List.filter Sprite.visible (children this) <> [] ->
  renderCanvas transform updated_worldAlpha child_worldTransform
    (with_children (List.filter Sprite.visible (children this)) this) renderer
  = renderCanvas transform updated_worldAlpha child_worldTransform this renderer.
Proof.
  intros Hsome. unfold renderCanvas.
  cbn [visible worldAlpha renderable children blendMode with_children].
  assert (children this <> []) as Hc by (now intros E; rewrite E in Hsome).
  destruct (List.filter Sprite.visible (children this)) eqn:Ef;
    [contradiction|].
  destruct (children this) eqn:Ec; [contradiction|].
  cbn [length Nat.eqb]. rewrite <- Ef, <- Ec.
  destruct (negb (visible this) || Qle_bool (worldAlpha this) 0 || false
            || negb (renderable this)); [reflexivity|].
  cbv zeta.
  change (renderCanvas_loop transform updated_worldAlpha child_worldTransform
            (with_children (List.filter Sprite.visible (children this)) this)
            renderer)
    with loop.
  now rewrite loop_filter.
Qed.

Lemma some_visible (cs : list Sprite.t) :
  List.filter Sprite.visible cs <> [] -> existsb Sprite.visible cs = true.
Proof.
  induction cs as [|child cs IH]; [intros H; now contradiction H|].
  cbn [List.filter existsb]. destruct (Sprite.visible child); [reflexivity|].
  exact IH.
Qed.

Lemma loop_transforms_unrotated r cs :
  Forall (fun child => Sprite.visible child = true -> unrotated child = true)
         cs ->
  transforms (snd (loop (r, []) cs))
  = if r && existsb Sprite.visible cs
    then [container_matrix transform renderer] else [].
Proof.
  intros Hall. revert r.
  induction Hall as [|child cs Hchild _ IH]; intros r.
  - now rewrite andb_false_r.
  - rewrite loop_cons, loop_from. cbn [snd existsb].
    unfold transforms in *. rewrite omap_app.
    destruct (Sprite.visible child) eqn:Hv.
    + destruct (child_ops_visible r child Hv) as (src & dst & ->).
      rewrite (Hchild eq_refl). cbn [fst snd]. rewrite IH.
      destruct r; reflexivity.
    + rewrite (child_ops_invisible r child Hv). cbn [fst snd].
      rewrite IH. reflexivity.
Qed.

(** When no visible child is rotated, the matrix is set once for the
    whole container: the world transform of the container, its
    translation scaled by the resolution and never rounded. *)
Theorem renderCanvas_unrotated :
  visible this = true ->
  (0 < worldAlpha this)%Q ->
  renderable this = true ->
  List.filter Sprite.visible (children this) <> [] ->
  Forall (fun child => Sprite.visible child = true -> unrotated child = true)
         (children this) ->
  transforms (renderCanvas transform updated_worldAlpha child_worldTransform this renderer)
  = [container_matrix transform renderer].
Proof.
  intros Hv Ha Hr Hsome Hall.
  assert (children this <> []) as Hc by (now intros E; rewrite E in Hsome).
  unfold renderCanvas. rewrite (not_skipped Hv Ha Hr Hc). cbv zeta.
  rewrite loop_from. cbn [snd].
  unfold transforms. rewrite !omap_app.
  fold (transforms (snd (loop (true, []) (children this)))).
  rewrite (loop_transforms_unrotated true _ Hall).
  rewrite (some_visible _ Hsome).
  destruct (decide _); reflexivity.
Qed.

Lemma loop_transforms_rotated r cs :
  Forall (fun child => Sprite.visible child = true -> unrotated child = false)
         cs ->
  transforms (snd (loop (r, []) cs))
  = (fun child => child_matrix (child_worldTransform child) renderer)
      <$> List.filter Sprite.visible cs.
Proof.
  intros Hall. revert r.
  induction Hall as [|child cs Hchild _ IH]; intros r; [reflexivity|].
  rewrite loop_cons, loop_from. cbn [snd List.filter].
  unfold transforms in *. rewrite omap_app.
  destruct (Sprite.visible child) eqn:Hv.
  - destruct (child_ops_visible r child Hv) as (src & dst & ->).
    rewrite (Hchild eq_refl). cbn [fst snd]. now rewrite IH.
  - rewrite (child_ops_invisible r child Hv). cbn [fst snd]. now rewrite IH.
Qed.

(** When every visible child is rotated, each one gets a matrix of its
    own: its world transform, the translation scaled by the resolution
    and, when the renderer rounds pixels, cut to a 32-bit integer. *)
Theorem renderCanvas_rotated :
  visible this = true ->
  (0 < worldAlpha this)%Q ->
  renderable this = true ->
  children this <> [] ->
  Forall (fun child => Sprite.visible child = true -> unrotated child = false)
         (children this) ->
  transforms (renderCanvas transform updated_worldAlpha child_worldTransform this renderer)
  = (fun child => child_matrix (child_worldTransform child) renderer)
      <$> List.filter Sprite.visible (children this).
Proof.
  intros Hv Ha Hr Hc Hall.
  unfold renderCanvas. rewrite (not_skipped Hv Ha Hr Hc). cbv zeta.
  rewrite loop_from. cbn [snd].
  unfold transforms. rewrite !omap_app.
  fold (transforms (snd (loop (true, []) (children this)))).
  rewrite (loop_transforms_rotated true _ Hall).
  destruct (decide _); reflexivity.
Qed.

Lemma loop_transforms_count r cs :
  (length (transforms (snd (loop (r, []) cs)))
   <= length (List.filter Sprite.visible cs))%nat
  /\ (r = true -> List.filter Sprite.visible cs <> [] ->
      (1 <= length (transforms (snd (loop (r, []) cs))))%nat).
Proof.
  revert r. induction cs as [|child cs IH]; intros r.
  - split; [reflexivity | intros _ H; now contradiction H].
  - rewrite loop_cons, loop_from. cbn [snd List.filter].
    unfold transforms in *. rewrite omap_app, length_app.
    destruct (Sprite.visible child) eqn:Hv.
    + destruct (child_ops_visible r child Hv) as (src & dst & ->).
      cbn [fst snd].
      destruct (IH (if unrotated child then false else true)) as [Hle _].
      destruct (unrotated child), r; simpl in *; split; intros; try lia;
        discriminate.
    + rewrite (child_ops_invisible r child Hv). cbn [fst snd].
      destruct (IH r) as [Hle Hone]. simpl. split; [exact Hle|].
      intros Hr Hsome. apply Hone; assumption.
Qed.

(** Whatever the rotations: the matrix is set at most once per image
    drawn, and at least once before anything is drawn. *)
Theorem renderCanvas_transform_count :
  visible this = true ->
  (0 < worldAlpha this)%Q ->
  renderable this = true ->
  List.filter Sprite.visible (children this) <> [] ->
  (1 <= length (transforms
                  (renderCanvas transform updated_worldAlpha child_worldTransform this renderer))
   <= length (images
                (renderCanvas transform updated_worldAlpha child_worldTransform this renderer)))%nat.
Proof.
  intros Hv Ha Hr Hsome.
  assert (children this <> []) as Hc by (now intros E; rewrite E in Hsome).
  unfold renderCanvas. rewrite (not_skipped Hv Ha Hr Hc). cbv zeta.
  rewrite loop_from. cbn [snd].
  destruct (loop_images true (children this)) as [Hi _].
  destruct (loop_transforms_count true (children this)) as [Hle Hone].
  specialize (Hone eq_refl Hsome).
  unfold images, transforms in *. rewrite !omap_app, !length_app.
  rewrite Hi, length_fmap.
  destruct (decide _); simpl; lia.
Qed.

End Canvas_properties.

Section Canvas_examples.
Import QArith_base Canvas.

Lemma renderCanvas_skips_witness :
  renderCanvas identity (1 # 2)%Q (fun _ => identity)
    (container_of []) (canvas_renderer true) = [].
Proof.
  apply renderCanvas_skips. right. right. left. reflexivity.
Defined.

Lemma renderCanvas_draws_witness :
  alphas (renderCanvas identity (1 # 2)%Q (fun _ => identity)
            (container_of [particle true 0; particle false 0; particle true 1])
            (canvas_renderer true))
  = [1; (1 # 2) * (1 # 2); (1 # 2) * (1 # 2)]%Q.
Proof.
  apply (renderCanvas_draws identity (1 # 2)%Q (fun _ => identity)
           (container_of [particle true 0; particle false 0; particle true 1])
           (canvas_renderer true)); try reflexivity. discriminate.
Defined.

Lemma renderCanvas_visible_only_witness :
  renderCanvas identity (1 # 2)%Q (fun _ => identity)
    (container_of [particle true 0; particle true 1]) (canvas_renderer true)
  = renderCanvas identity (1 # 2)%Q (fun _ => identity)
      (container_of [particle true 0; particle false 0; particle true 1])
      (canvas_renderer true).
Proof.
  apply (renderCanvas_visible_only identity (1 # 2)%Q (fun _ => identity)
           (container_of [particle true 0; particle false 0; particle true 1])
           (canvas_renderer true)).
  discriminate.
Defined.

Lemma renderCanvas_unrotated_witness :
  transforms (renderCanvas identity (1 # 2)%Q (fun _ => identity)
                (container_of [particle true 0; particle true TWO_PI])
                (canvas_renderer true))
  = [container_matrix identity (canvas_renderer true)].
Proof.
  apply renderCanvas_unrotated; try reflexivity; [discriminate|].
  repeat constructor.
Defined.

Lemma renderCanvas_rotated_witness :
  length (transforms (renderCanvas identity (1 # 2)%Q (fun _ => identity)
                        (container_of [particle true 1; particle true 2])
                        (canvas_renderer true)))
  = 2%nat.
Proof.
  rewrite renderCanvas_rotated; try reflexivity; [discriminate|].
  repeat constructor.
Defined.

Lemma renderCanvas_transform_count_witness :
  (1 <= length (transforms
                  (renderCanvas identity (1 # 2)%Q (fun _ => identity)
                     (container_of [particle true 0; particle true 1])
                     (canvas_renderer false)))
   <= 2)%nat.
Proof.
  destruct (renderCanvas_transform_count identity (1 # 2)%Q (fun _ => identity)
              (container_of [particle true 0; particle true 1])
              (canvas_renderer false)) as [Hlow Hhigh];
    try reflexivity; [discriminate|].
  split; [exact Hlow | exact Hhigh].
Defined.

(** The number cut by [| 0] is always a signed 32-bit integer.  For a
    number strictly between -2^31 and 2^31 it is the integer part towards
    zero: less than one below a positive number, less than one above a
    negative one. *)
Theorem bitor0_truncates q :
  (- inject_Z (2 ^ 31) < q)%Q ->
  (q < inject_Z (2 ^ 31))%Q ->
  bitor0 q = inject_Z (truncate q)
  /\ (0 <= q -> bitor0 q <= q /\ q < bitor0 q + 1)%Q
  /\ (q <= 0 -> bitor0 q - 1 < q /\ q <= bitor0 q)%Q
  /\ forall q', exists n : Z,
       bitor0 q' = inject_Z n /\ (- 2 ^ 31 <= n < 2 ^ 31)%Z.
Proof.
  intros Hlow Hhigh.
  assert (forall q', exists n : Z,
            bitor0 q' = inject_Z n /\ (- 2 ^ 31 <= n < 2 ^ 31)%Z) as Hrange.
  { intros q'. unfold bitor0. cbv zeta. eexists. split; [reflexivity|].
    pose proof (Z.mod_pos_bound (truncate q') (2 ^ 32) ltac:(lia)).
    destruct (Z.geb_spec (truncate q' mod 2 ^ 32) (2 ^ 31)); lia. }
  destruct q as [n d]. unfold Qlt, Qle in *. simpl in Hlow, Hhigh.
  pose proof (Z.quot_rem' n (Zpos d)) as Hqr.
  assert (bitor0 (n # d) = inject_Z (truncate (n # d))) as Hcut.
  { unfold bitor0, truncate. cbv zeta. cbn [Qnum Qden]. f_equal.
    set (t := Z.quot n (Zpos d)) in *.
    assert (- 2 ^ 31 < t < 2 ^ 31)%Z as Ht.
    { destruct (Z.le_gt_cases 0 n).
      - pose proof (Z.rem_bound_pos_pos n (Zpos d) ltac:(lia) ltac:(lia)).
        nia.
      - pose proof (Z.rem_bound_pos_neg n (Zpos d) ltac:(lia) ltac:(lia)).
        nia. }
    destruct (Z.le_gt_cases 0 t).
    - rewrite Z.mod_small by lia.
      destruct (Z.geb_spec t (2 ^ 31)); lia.
    - replace (t mod 2 ^ 32)%Z with (t + 2 ^ 32)%Z.
      + destruct (Z.geb_spec (t + 2 ^ 32) (2 ^ 31)); lia.
      + apply Z.mod_unique with (q := (-1)%Z); lia. }
  split; [exact Hcut|]. rewrite Hcut. unfold truncate. cbn [Qnum Qden].
  split; [|split; [|exact Hrange]]; simpl; intros Hsign.
  - pose proof (Z.rem_bound_pos_pos n (Zpos d) ltac:(lia) ltac:(lia)).
    split; nia.
  - pose proof (Z.rem_bound_pos_neg n (Zpos d) ltac:(lia) ltac:(lia)).
    split; nia.
Qed.

Lemma bitor0_truncates_witness :
  bitor0 (- (27 # 10)) = inject_Z (- 2) /\ bitor0 (27 # 10) = inject_Z 2.
Proof.
  split.
  - destruct (bitor0_truncates (- (27 # 10))) as [-> _]; reflexivity.
  - destruct (bitor0_truncates (27 # 10)) as [-> _]; reflexivity.
Defined.

End Canvas_examples.

(** * Properties of the rope *)

Section Rope_properties.
Import Rope.
Local Open Scope R_scope.

Lemma step_same_but_ratio this total l l' i :
  same_but_ratio l l' ->
  same_but_ratio (updateTransform_step this total l i)
                 (updateTransform_step_no_ratio this l' i).
Proof.
  intros (Hlast & _ & _ & _ & Hv & _).
  unfold same_but_ratio, updateTransform_step, updateTransform_step_no_ratio.
  simpl. rewrite Hlast, Hv. repeat split.
Qed.

Lemma loop_same_but_ratio this total (turns : list nat) l l' :
  same_but_ratio l l' ->
  same_but_ratio (fold_left (updateTransform_step this total) turns l)
                 (fold_left (updateTransform_step_no_ratio this) turns l').
Proof.
  revert l l'. induction turns as [|i turns IH]; intros l l' H; [exact H|].
  simpl. apply IH. now apply step_same_but_ratio.
Qed.

Lemma div_by_two u : div (Fin u) (Fin 2) = Fin (u / 2).
Proof. unfold div. destruct (Req_dec_T 2 0); [lra | reflexivity]. Qed.

(** C8: the derivation and the derivation without the ratio statements
    leave the same rope, hence the same vertex buffer: the ratio reaches
    no store.  The scale of the normal is [texture.height / 2] at every
    turn of the loop, whatever the index. *)
Theorem updateTransform_ignores_ratio this :
  updateTransform this = updateTransform_no_ratio this
  /\ vertices (updateTransform this)
     = vertices (updateTransform_no_ratio this)
  /\ forall total l i,
       num_ (updateTransform_step this total l i)
       = Some (Fin (height (_texture (super this)) / 2)).
Proof.
  assert (updateTransform this = updateTransform_no_ratio this) as H.
  { unfold updateTransform, updateTransform_no_ratio, updateTransform_loop.
    destruct (length (points this) <? 1)%nat; [reflexivity|].
    f_equal.
    apply (loop_same_but_ratio this (length (points this))
             (seq 0 (length (points this)))).
    repeat split. }
  split; [exact H | split; [now rewrite H|]].
  intros; unfold updateTransform_step; cbv zeta; cbv beta iota delta [num_].
  now rewrite div_by_two.
Qed.


(** **** The loop of [updateTransform] *)

Lemma step_vertices this total l i :
  l_vertices (updateTransform_step this total l i)
  = <[(i * 4 + 3)%nat := sub (Fin (y (points this !!! i)))
                            (snd (perp this (lastPoint l) i))]>
      (<[(i * 4 + 2)%nat := sub (Fin (x (points this !!! i)))
                               (fst (perp this (lastPoint l) i))]>
         (<[(i * 4 + 1)%nat := add (Fin (y (points this !!! i)))
                                  (snd (perp this (lastPoint l) i))]>
            (<[(i * 4)%nat := add (Fin (x (points this !!! i)))
                                (fst (perp this (lastPoint l) i))]>
               (l_vertices l)))).
Proof. reflexivity. Qed.

Lemma step_lastPoint this total l i :
  lastPoint (updateTransform_step this total l i) = points this !!! i.
Proof. reflexivity. Qed.

(** After [k] turns: [lastPoint] is the point before [k], the first
    [k] cross-sections are stored, the rest of the array is as it was. *)
Lemma loop_prefix this total k :
  let l := fold_left (updateTransform_step this total) (seq 0 k)
             (updateTransform_init this) in
  lastPoint l = previous this k
  /\ length (l_vertices l) = length (vertices this)
  /\ (forall i j,
        (i < k)%nat -> (j < 4)%nat ->
        (i * 4 + j < length (vertices this))%nat ->
        l_vertices l !! (i * 4 + j)%nat = cross_section this i !! j)
  /\ (forall q, (k * 4 <= q)%nat -> l_vertices l !! q = vertices this !! q).
Proof.
  induction k as [|k IH]; cbv zeta in *.
  - simpl. repeat split; try reflexivity. intros; lia.
  - rewrite seq_S, fold_left_app. cbn [fold_left Nat.add].
    set (l := fold_left _ _ _) in *.
    destruct IH as (Hlast & Hlen & Hdone & Hrest).
    rewrite step_lastPoint, step_vertices, !length_insert.
    split; [unfold previous; f_equal; lia|].
    split; [exact Hlen|]. split.
    + intros i j Hi Hj Hin.
      destruct (decide (i = k)) as [->|Hne].
      * rewrite Hlast. unfold cross_section.
        destruct j as [|[|[|[|j]]]]; try lia; simpl;
          rewrite ?Nat.add_0_r;
          repeat (rewrite list_lookup_insert_ne by lia);
          (rewrite list_lookup_insert_eq
             by (rewrite ?length_insert; lia));
          reflexivity.
      * repeat (rewrite list_lookup_insert_ne by lia).
        apply Hdone; lia.
    + intros q Hq.
      repeat (rewrite list_lookup_insert_ne by lia).
      apply Hrest. lia.
Qed.

(** The vertex buffer after [updateTransform], for a buffer of the size
    the constructor gives it. *)
Lemma updateTransform_vertices this :
  (1 <= length (points this))%nat ->
  length (vertices this) = (length (points this) * 4)%nat ->
  length (vertices (updateTransform this)) = (length (points this) * 4)%nat
  /\ forall i j,
       (i < length (points this))%nat -> (j < 4)%nat ->
       vertices (updateTransform this) !! (i * 4 + j)%nat
       = cross_section this i !! j.
Proof.
  intros HN Hlen. unfold updateTransform.
  destruct (Nat.ltb_spec (length (points this)) 1); [lia|]. simpl.
  unfold updateTransform_loop.
  destruct (loop_prefix this (length (points this)) (length (points this)))
    as (_ & Hl & Hdone & _).
  split; [now rewrite Hl|].
  intros i j Hi Hj. apply Hdone; lia.
Qed.

(** **** The normal of one turn *)

(** The point [nextPoint] holds in turn [i]. *)
Lemma perp_unfold this last i :
  perp this last i
  = let next :=
      if (Z.of_nat i <? Z.of_nat (length (points this)) - 1)%Z
      then points this !!! (i + 1)%nat else points this !!! i in
    let perpY := neg (sub (Fin (x next)) (Fin (x last))) in
    let perpX := sub (Fin (y next)) (Fin (y last)) in
    let perpLength := sqrt (add (mul perpX perpX) (mul perpY perpY)) in
    let num := Fin (height (_texture (super this)) / 2) in
    (mul (div perpX perpLength) num, mul (div perpY perpLength) num).
Proof.
  unfold perp, updateTransform_step. cbv zeta.
  cbv beta iota delta [perpX perpY lastPoint].
  now rewrite div_by_two.
Qed.

Lemma sqrt_horizontal d : R_sqrt.sqrt (0 * 0 + - d * - d) = Rabs d.
Proof.
  replace (0 * 0 + - d * - d) with (Rsqr d) by (unfold Rsqr; lra).
  apply sqrt_Rsqr_abs.
Qed.

(** Same ordinate, different abscissa: the normal is vertical, of
    length half the height, and points down when [next] is to the
    right of [last]. *)
Lemma normal_horizontal (xn xl yn yl h : R) :
  yn = yl -> xn <> xl ->
  let perpY := neg (sub (Fin xn) (Fin xl)) in
  let perpX := sub (Fin yn) (Fin yl) in
  let perpLength := sqrt (add (mul perpX perpX) (mul perpY perpY)) in
  exists e,
    (mul (div perpX perpLength) (Fin h), mul (div perpY perpLength) (Fin h))
    = (Fin 0, Fin e)
    /\ (e = h \/ e = - h)
    /\ (xl < xn -> e = - h) /\ (xn < xl -> e = h).
Proof.
  intros -> Hx. cbv zeta. unfold sub, neg, mul, add, lift2, sqrt.
  replace (yl - yl) with 0 by lra.
  rewrite sqrt_horizontal.
  destruct (Rlt_dec _ 0) as [Hneg|_].
  { exfalso. nra. }
  assert (Rabs (xn - xl) <> 0) as Habs by (apply Rabs_no_R0; lra).
  unfold div. destruct (Req_dec_T _ 0) as [|_]; [contradiction|].
  destruct (Rlt_dec xl xn) as [Hlt|Hge].
  - exists (- h). rewrite Rabs_right by lra.
    split; [|split; [now right | split; [reflexivity | lra]]].
    f_equal; f_equal; field; lra.
  - exists h. rewrite Rabs_left by lra.
    split; [|split; [now left | split; [lra | reflexivity]]].
    f_equal; f_equal; field; lra.
Qed.

(** [nextPoint] on [lastPoint]: the length is 0 and both divisions give
    [NaN]. *)
Lemma normal_degenerate (p : Point) (h : R) :
  let perpY := neg (sub (Fin (x p)) (Fin (x p))) in
  let perpX := sub (Fin (y p)) (Fin (y p)) in
  let perpLength := sqrt (add (mul perpX perpX) (mul perpY perpY)) in
  perpX = Fin 0 /\ perpY = Fin 0 /\ perpLength = Fin 0
  /\ div perpX perpLength = NaN /\ div perpY perpLength = NaN.
Proof.
  cbv zeta. unfold sub, neg, mul, add, lift2, sqrt.
  replace (y p - y p) with 0 by lra.
  replace (- (x p - x p)) with 0 by lra.
  replace (0 * 0 + 0 * 0) with 0 by lra.
  destruct (Rlt_dec 0 0) as [H|_]; [lra|].
  rewrite sqrt_0. unfold div.
  destruct (Req_dec_T 0 0) as [_|H]; [|contradiction].
  repeat split.
Qed.

(** Whenever the length is 0 both dividends are 0: the normalisation
    never divides a non-zero number by 0, its only non-finite result is
    the [NaN] of [0 / 0]. *)
Lemma zero_length_zero_vector (a b : R) :
  sqrt (add (mul (Fin a) (Fin a)) (mul (Fin b) (Fin b))) = Fin 0 ->
  a = 0 /\ b = 0.
Proof.
  unfold sqrt, add, mul, lift2.
  destruct (Rlt_dec _ 0); [discriminate|].
  intros [= H]. apply sqrt_eq_0 in H; nra.
Qed.

(** [refresh] leaves the points, the vertex buffer and the texture. *)
Lemma refresh_frame this :
  points (refresh this) = points this
  /\ vertices (refresh this) = vertices this
  /\ _texture (super (refresh this)) = _texture (super this).
Proof.
  unfold refresh.
  destruct (length (points this) <? 1)%nat; [repeat split|].
  destruct (_uvs (_texture (super this))); repeat split.
Qed.

(** **** The loop of [refresh] *)

Ltac array_lookup :=
  unfold Float32Array_set, Uint16Array_set;
  repeat (rewrite list_lookup_insert_ne by lia);
  try (rewrite list_lookup_insert_eq by (rewrite ?length_insert; lia));
  try reflexivity.

(** After the turns 1 to [k]: the sizes are kept, the cells of point 0
    are as they were, and the cells of the points 1 to [k] that lie
    inside the arrays hold the values of their turn. *)
Lemma refresh_loop_prefix total factor offset b0 k :
  let b := fold_left (refresh_step total factor offset) (seq 1 k) b0 in
  let amount i := div (of_nat i) (sub (of_nat total) (Fin 1)) in
  (length (b_uvs b) = length (b_uvs b0)
   /\ length (b_colors b) = length (b_colors b0)
   /\ length (b_indices b) = length (b_indices b0))
  /\ ((forall q, (q < 4)%nat -> b_uvs b !! q = b_uvs b0 !! q)
      /\ (forall q, (q < 2)%nat -> b_colors b !! q = b_colors b0 !! q)
      /\ (forall q, (q < 2)%nat -> b_indices b !! q = b_indices b0 !! q))
  /\ (forall i,
        (1 <= i <= k)%nat -> (i * 4 + 3 < length (b_uvs b0))%nat ->
        b_uvs b !! (i * 4)%nat
          = Some (add (mul (amount i) (Fin (x factor))) (Fin (x offset)))
        /\ b_uvs b !! (i * 4 + 1)%nat = Some (add (Fin 0) (Fin (y offset)))
        /\ b_uvs b !! (i * 4 + 2)%nat
          = Some (add (mul (amount i) (Fin (x factor))) (Fin (x offset)))
        /\ b_uvs b !! (i * 4 + 3)%nat
          = Some (add (mul (Fin 1) (Fin (y factor))) (Fin (y offset))))
  /\ (forall i,
        (1 <= i <= k)%nat -> (i * 2 + 1 < length (b_colors b0))%nat ->
        b_colors b !! (i * 2)%nat = Some (Fin 1)
        /\ b_colors b !! (i * 2 + 1)%nat = Some (Fin 1))
  /\ (forall i,
        (1 <= i <= k)%nat -> (i * 2 + 1 < length (b_indices b0))%nat ->
        b_indices b !! (i * 2)%nat
          = Some (Z.of_nat (i * 2) mod 65536)%Z
        /\ b_indices b !! (i * 2 + 1)%nat
          = Some (Z.of_nat (i * 2 + 1) mod 65536)%Z).
Proof.
  induction k as [|k IH]; cbv zeta in *.
  - simpl. repeat split; intros; lia.
  - rewrite seq_S, fold_left_app. cbn [fold_left].
    set (b := fold_left _ _ _) in *.
    destruct IH as ((Lu & Lc & Li) & (Fu & Fc & Fi) & Hu & Hc & Hi).
    unfold refresh_step. cbn [b_uvs b_colors b_indices].
    split; [|split; [|split; [|split]]].
    + unfold Float32Array_set, Uint16Array_set.
      rewrite !length_insert. auto.
    + repeat split; intros q Hq; array_lookup; auto.
    + intros i Hik Hin.
      destruct (decide (i = (1 + k)%nat)) as [->|Hne].
      * repeat split; array_lookup.
      * destruct (Hu i ltac:(lia) Hin) as (H0 & H1 & H2 & H3).
        repeat split; array_lookup; assumption.
    + intros i Hik Hin.
      destruct (decide (i = (1 + k)%nat)) as [->|Hne].
      * repeat split; array_lookup.
      * destruct (Hc i ltac:(lia) Hin) as (H0 & H1).
        repeat split; array_lookup; assumption.
    + intros i Hik Hin.
      destruct (decide (i = (1 + k)%nat)) as [->|Hne].
      * repeat split; array_lookup.
      * destruct (Hi i ltac:(lia) Hin) as (H0 & H1).
        repeat split; array_lookup; assumption.
Qed.

Lemma amount_finite i total :
  (2 <= total)%nat ->
  div (of_nat i) (sub (of_nat total) (Fin 1))
  = Fin (INR i / (INR total - 1)).
Proof.
  intros Ht. unfold of_nat, sub, lift2, div.
  destruct (Req_dec_T (INR total - 1) 0) as [H0|_]; [|reflexivity].
  apply le_INR in Ht. simpl in Ht. lra.
Qed.

(** Opens [refresh] on a rope with a point and a UV rectangle, and brings
    in what the loop leaves ([refresh_loop_prefix]). *)
Ltac enter_refresh this tuv Huv :=
  unfold refresh;
  destruct (Nat.ltb_spec (length (points this)) 1); [lia|];
  rewrite Huv; cbv zeta;
  cbn [uvs colors indices super dirty indexDirty x y];
  match goal with
  | |- context [fold_left ?f (seq 1 ?k) ?b0] =>
      destruct (refresh_loop_prefix (length (points this))
                  {| x := x2 tuv - x0 tuv; y := y2 tuv - y0 tuv |}
                  {| x := x0 tuv; y := y0 tuv |} b0 k)
        as ((Lu' & Lc' & Li') & (Fu & Fc & Fi) & Hu & Hc & Hi);
      set (b := fold_left f (seq 1 k) b0) in *
  end;
  cbn [b_uvs b_colors b_indices x y] in *;
  unfold Float32Array_set, Uint16Array_set in *;
  rewrite ?length_insert in *.

(** The index array after [refresh]: a [Uint16Array] keeps each index
    modulo 65536. *)
Lemma refresh_indices this tuv :
  (1 <= length (points this))%nat ->
  _uvs (_texture (super this)) = Some tuv ->
  length (uvs this) = (length (points this) * 4)%nat ->
  length (colors this) = (length (points this) * 2)%nat ->
  length (indices this) = (length (points this) * 2)%nat ->
  forall i,
    (i < length (points this))%nat ->
    indices (refresh this) !! (i * 2)%nat
      = Some ((2 * Z.of_nat i) mod 65536)%Z
    /\ indices (refresh this) !! (i * 2 + 1)%nat
      = Some ((2 * Z.of_nat i + 1) mod 65536)%Z.
Proof.
  intros HN Huv Lu Lc Li.
  enter_refresh this tuv Huv.
  intros i Hlt.
  destruct (decide (i = 0%nat)) as [->|Hne].
  - cbn [Nat.mul Nat.add].
    rewrite (Fi 0%nat), (Fi 1%nat) by lia.
    split; array_lookup.
  - destruct (Hi i ltac:(lia) ltac:(lia)) as [-> ->].
    split; do 2 f_equal; lia.
Qed.

(** The uvs, the colours and the flags after [refresh]. *)
Lemma refresh_uvs_colors this tuv :
  (1 <= length (points this))%nat ->
  _uvs (_texture (super this)) = Some tuv ->
  length (uvs this) = (length (points this) * 4)%nat ->
  length (colors this) = (length (points this) * 2)%nat ->
  length (indices this) = (length (points this) * 2)%nat ->
  (length (uvs (refresh this)) = (length (points this) * 4)%nat
   /\ length (colors (refresh this)) = (length (points this) * 2)%nat
   /\ length (indices (refresh this)) = (length (points this) * 2)%nat)
  /\ (uvs (refresh this) !! 0%nat = Some (Fin (x0 tuv))
      /\ uvs (refresh this) !! 2%nat = Some (Fin (x0 tuv)))
  /\ (forall i,
        (1 <= i < length (points this))%nat ->
        uvs (refresh this) !! (i * 4)%nat
          = Some (Fin (INR i / (INR (length (points this)) - 1)
                       * (x2 tuv - x0 tuv) + x0 tuv))
        /\ uvs (refresh this) !! (i * 4 + 2)%nat
          = Some (Fin (INR i / (INR (length (points this)) - 1)
                       * (x2 tuv - x0 tuv) + x0 tuv)))
  /\ (forall i,
        (i < length (points this))%nat ->
        uvs (refresh this) !! (i * 4 + 1)%nat = Some (Fin (y0 tuv))
        /\ uvs (refresh this) !! (i * 4 + 3)%nat
          = Some (Fin ((y2 tuv - y0 tuv) + y0 tuv)))
  /\ (forall i,
        (i < length (points this))%nat ->
        colors (refresh this) !! (i * 2)%nat = Some (Fin 1)
        /\ colors (refresh this) !! (i * 2 + 1)%nat = Some (Fin 1))
  /\ dirty (super (refresh this)) = true
  /\ indexDirty (super (refresh this)) = true.
Proof.
  intros HN Huv Lu Lc Li.
  enter_refresh this tuv Huv.
  split; [repeat split; congruence|].
  split; [|split; [|split; [|split]]].
  - rewrite (Fu 0%nat), (Fu 2%nat) by lia.
    split; array_lookup; unfold add, lift2; do 2 f_equal; lra.
  - intros i Hi1.
    destruct (Hu i ltac:(lia) ltac:(lia)) as (-> & _ & -> & _).
    rewrite amount_finite by lia.
    unfold add, mul, lift2. split; reflexivity.
  - intros i Hlt.
    destruct (decide (i = 0%nat)) as [->|Hne].
    + cbn [Nat.mul Nat.add].
      rewrite (Fu 1%nat), (Fu 3%nat) by lia.
      split; array_lookup; unfold add, mul, lift2; do 2 f_equal; lra.
    + destruct (Hu i ltac:(lia) ltac:(lia)) as (_ & -> & _ & ->).
      unfold add, mul, lift2. split; do 2 f_equal; lra.
  - intros i Hlt.
    destruct (decide (i = 0%nat)) as [->|Hne].
    + cbn [Nat.mul Nat.add].
      rewrite (Fc 0%nat), (Fc 1%nat) by lia. split; array_lookup.
    + destruct (Hc i ltac:(lia) ltac:(lia)) as [-> ->].
      split; reflexivity.
  - split; reflexivity.
Qed.

(** C5, as the code has it: for a rope with at least one point, a
    resolved UV rectangle and buffers of the sizes the constructor gives
    them, [refresh] leaves [4 N] uvs, [2 N] colours and [2 N] indices
    with: [uvs[0] = uvs[2] = offsetX]; for [i >= 1],
    [uvs[4i] = uvs[4i+2] = (i / (N - 1)) * scaleX + offsetX];
    [uvs[4i+1] = offsetY] and [uvs[4i+3] = scaleY + offsetY]; every
    colour 1; and [indices[2i]] and [indices[2i+1]] equal to [2i] and
    [2i+1] modulo 65536, the array being a [Uint16Array], hence to [2i]
    and [2i+1] themselves when there are at most 32768 points.  Both
    dirty flags are set. *)
Theorem refresh_buffers this tuv :
  (1 <= length (points this))%nat ->
  _uvs (_texture (super this)) = Some tuv ->
  length (uvs this) = (length (points this) * 4)%nat ->
  length (colors this) = (length (points this) * 2)%nat ->
  length (indices this) = (length (points this) * 2)%nat ->
  (length (uvs (refresh this)) = (length (points this) * 4)%nat
   /\ length (colors (refresh this)) = (length (points this) * 2)%nat
   /\ length (indices (refresh this)) = (length (points this) * 2)%nat)
  /\ (uvs (refresh this) !! 0%nat = Some (Fin (x0 tuv))
      /\ uvs (refresh this) !! 2%nat = Some (Fin (x0 tuv)))
  /\ (forall i,
        (1 <= i < length (points this))%nat ->
        uvs (refresh this) !! (i * 4)%nat
          = Some (Fin (INR i / (INR (length (points this)) - 1)
                       * (x2 tuv - x0 tuv) + x0 tuv))
        /\ uvs (refresh this) !! (i * 4 + 2)%nat
          = Some (Fin (INR i / (INR (length (points this)) - 1)
                       * (x2 tuv - x0 tuv) + x0 tuv)))
  /\ (forall i,
        (i < length (points this))%nat ->
        uvs (refresh this) !! (i * 4 + 1)%nat = Some (Fin (y0 tuv))
        /\ uvs (refresh this) !! (i * 4 + 3)%nat
          = Some (Fin ((y2 tuv - y0 tuv) + y0 tuv)))
  /\ (forall i,
        (i < length (points this))%nat ->
        colors (refresh this) !! (i * 2)%nat = Some (Fin 1)
        /\ colors (refresh this) !! (i * 2 + 1)%nat = Some (Fin 1))
  /\ (forall i,
        (i < length (points this))%nat ->
        indices (refresh this) !! (i * 2)%nat
          = Some ((2 * Z.of_nat i) mod 65536)%Z
        /\ indices (refresh this) !! (i * 2 + 1)%nat
          = Some ((2 * Z.of_nat i + 1) mod 65536)%Z)
  /\ ((Z.of_nat (length (points this)) <= 32768)%Z ->
      forall i,
        (i < length (points this))%nat ->
        indices (refresh this) !! (i * 2)%nat = Some (2 * Z.of_nat i)%Z
        /\ indices (refresh this) !! (i * 2 + 1)%nat
          = Some (2 * Z.of_nat i + 1)%Z)
  /\ dirty (super (refresh this)) = true
  /\ indexDirty (super (refresh this)) = true.
Proof.
  intros HN Huv Lu Lc Li.
  destruct (refresh_uvs_colors this tuv HN Huv Lu Lc Li)
    as (H1 & H2 & H3 & H4 & H5 & H6 & H7).
  pose proof (refresh_indices this tuv HN Huv Lu Lc Li) as Hidx.
  repeat (split; [assumption|]).
  split; [|split; assumption].
  intros H32 i Hi. destruct (Hidx i Hi) as [-> ->].
  rewrite !Z.mod_small by lia. split; reflexivity.
Qed.

Lemma allocate_sizes mesh pts :
  points (allocate mesh pts) = pts
  /\ length (uvs (allocate mesh pts)) = (length pts * 4)%nat
  /\ length (colors (allocate mesh pts)) = (length pts * 2)%nat
  /\ length (indices (allocate mesh pts)) = (length pts * 2)%nat.
Proof. unfold allocate. simpl. now rewrite !length_replicate. Qed.

Lemma refresh_buffers_witness :
  uvs (constructor mesh20 three_points) !! 4%nat
    = Some (Fin (INR 1 / (INR 3 - 1) * (1 - 0) + 0))
  /\ indices (constructor mesh20 three_points) !! 5%nat = Some 5%Z.
Proof.
  destruct (allocate_sizes mesh20 three_points) as (Hp & Lu & Lc & Li).
  destruct (refresh_buffers (allocate mesh20 three_points)
              {| x0 := 0; y0 := 0; x2 := 1; y2 := 1 |})
    as (_ & _ & Huv & _ & _ & _ & Hidx & _);
    rewrite ?Hp; try assumption; try reflexivity; [simpl; lia|].
  rewrite Hp in Huv, Hidx. split.
  - apply (Huv 1%nat). simpl. lia.
  - apply (Hidx ltac:(simpl; lia) 2%nat). simpl. lia.
Defined.

(** C5 fails for a rope too long for 16-bit indices: with 32769 points,
    [indices[2 * 32768]] is 0, not 65536. *)
Lemma refresh_index_wraps :
  length (points (constructor mesh20 long_chain)) = Z.to_nat 32769
  /\ indices (constructor mesh20 long_chain) !! (Z.to_nat 32768 * 2)%nat
     = Some 0%Z
  /\ (2 * 32768 <> 0)%Z.
Proof.
  unfold constructor.
  destruct (allocate_sizes mesh20 long_chain) as (Hp & Lu & Lc & Li).
  assert (length long_chain = Z.to_nat 32769) as Hlen
    by apply length_replicate.
  pose proof (refresh_indices (allocate mesh20 long_chain)
                {| x0 := 0; y0 := 0; x2 := 1; y2 := 1 |}) as Hidx.
  rewrite Hp, Hlen in Hidx.
  specialize (Hidx ltac:(lia) eq_refl
                ltac:(now rewrite <- Hlen) ltac:(now rewrite <- Hlen)
                ltac:(now rewrite <- Hlen)).
  split; [|split; [|lia]].
  - destruct (refresh_frame (allocate mesh20 long_chain)) as (-> & _).
    now rewrite Hp.
  - destruct (Hidx (Z.to_nat 32768) ltac:(lia)) as [-> _].
    rewrite Z2Nat.id by lia. reflexivity.
Qed.

Lemma constructor_frame mesh pts :
  points (constructor mesh pts) = pts
  /\ vertices (constructor mesh pts) = replicate (length pts * 4) (Fin 0)
  /\ _texture (super (constructor mesh pts)) = _texture mesh.
Proof. unfold constructor. apply refresh_frame. Qed.

Lemma three_points_distinct : NoDup three_points.
Proof.
  unfold three_points.
  rewrite !NoDup_cons, NoDup_nil, !not_elem_of_cons.
  repeat split; try apply not_elem_of_nil; intros [= H0]; lra.
Qed.

Lemma three_points_horizontal p : p ∈ three_points -> y p = 0.
Proof.
  unfold three_points. intros Hin.
  rewrite !elem_of_cons, elem_of_nil in Hin.
  destruct Hin as [->|[->|[->|[]]]]; reflexivity.
Qed.

(** One turn on a horizontal chain of distinct points. *)
Lemma horizontal_turn this y0 i :
  (2 <= length (points this))%nat ->
  (forall p, p ∈ points this -> y p = y0) ->
  NoDup (points this) ->
  (i < length (points this))%nat ->
  let next :=
    if (Z.of_nat i <? Z.of_nat (length (points this)) - 1)%Z
    then points this !!! (i + 1)%nat else points this !!! i in
  exists e,
    perp this (previous this i) i = (Fin 0, Fin e)
    /\ (e = height (_texture (super this)) / 2
        \/ e = - (height (_texture (super this)) / 2))
    /\ (x (previous this i) < x next ->
        e = - (height (_texture (super this)) / 2))
    /\ (x next < x (previous this i) ->
        e = height (_texture (super this)) / 2).
Proof.
  intros HN Hy Hdistinct Hi next.
  assert (exists jn jl, (jn < length (points this))%nat
                        /\ (jl < length (points this))%nat
                        /\ jn <> jl
                        /\ next = points this !!! jn
                        /\ previous this i = points this !!! jl)
    as (jn & jl & Hjn & Hjl & Hne & Hnext & Hlast).
  { subst next. unfold previous.
    destruct (Z.ltb_spec (Z.of_nat i) (Z.of_nat (length (points this)) - 1)).
    - exists (i + 1)%nat, (i - 1)%nat. repeat split; lia.
    - exists i, (i - 1)%nat. repeat split; lia. }
  pose proof (list_lookup_lookup_total_lt (points this) jn Hjn) as Hn.
  pose proof (list_lookup_lookup_total_lt (points this) jl Hjl) as Hl.
  assert (y next = y (previous this i)) as Hsame.
  { rewrite Hnext, Hlast.
    rewrite (Hy _ (list_elem_of_lookup_2 _ _ _ Hn)).
    now rewrite (Hy _ (list_elem_of_lookup_2 _ _ _ Hl)). }
  assert (x next <> x (previous this i)) as Hdiff.
  { intros Hx. apply Hne.
    assert (next = previous this i) as Heq.
    { destruct next, (previous this i). simpl in *. now subst. }
    rewrite Hnext, Hlast in Heq. rewrite Heq in Hn.
    exact (NoDup_lookup _ _ _ _ Hdistinct Hn Hl). }
  rewrite perp_unfold. fold next. cbv zeta.
  exact (normal_horizontal (x next) (x (previous this i)) (y next)
           (y (previous this i)) (height (_texture (super this)) / 2)
           Hsame Hdiff).
Qed.

(** C6: for a rope with at least one point and a vertex buffer of the
    size the constructor gives it, [updateTransform] leaves a buffer of
    [4 N] numbers whose four numbers at [4 i] are the point plus and the
    point minus the scaled normal of turn [i].  On a horizontal chain of
    at least two distinct points every normal is vertical and as long as
    half the texture height, so the two vertices of point [i] are right
    above and below it.  For (0,0), (50,0), (100,0) and a texture of
    height 20 the vertices of point 1 are (50,-10) and (50,10). *)
Theorem updateTransform_cross_sections this :
  (1 <= length (points this))%nat ->
  length (vertices this) = (length (points this) * 4)%nat ->
  length (vertices (updateTransform this)) = (length (points this) * 4)%nat
  /\ (forall i j,
        (i < length (points this))%nat -> (j < 4)%nat ->
        vertices (updateTransform this) !! (i * 4 + j)%nat
        = cross_section this i !! j)
  /\ (forall y0,
        (2 <= length (points this))%nat ->
        (forall p, p ∈ points this -> y p = y0) ->
        NoDup (points this) ->
        forall i,
          (i < length (points this))%nat ->
          exists e,
            (e = height (_texture (super this)) / 2
             \/ e = - (height (_texture (super this)) / 2))
            /\ perp this (previous this i) i = (Fin 0, Fin e)
            /\ vertices (updateTransform this) !! (i * 4)%nat
               = Some (Fin (x (points this !!! i)))
            /\ vertices (updateTransform this) !! (i * 4 + 1)%nat
               = Some (Fin (y0 + e))
            /\ vertices (updateTransform this) !! (i * 4 + 2)%nat
               = Some (Fin (x (points this !!! i)))
            /\ vertices (updateTransform this) !! (i * 4 + 3)%nat
               = Some (Fin (y0 - e)))
  /\ (let vs := vertices (updateTransform (constructor mesh20 three_points))
      in vs !! 4%nat = Some (Fin 50) /\ vs !! 5%nat = Some (Fin (-10))
         /\ vs !! 6%nat = Some (Fin 50) /\ vs !! 7%nat = Some (Fin 10)).
Proof.
  intros HN Hlen.
  destruct (updateTransform_vertices this HN Hlen) as [Hl Hcells].
  split; [exact Hl|]. split; [exact Hcells|]. split.
  - intros y0 HN2 Hy Hdistinct i Hi.
    destruct (horizontal_turn this y0 i HN2 Hy Hdistinct Hi)
      as (e & Hperp & Hmag & _).
    assert (y (points this !!! i) = y0) as Hyi.
    { apply Hy, list_elem_of_lookup_total_2. exact Hi. }
    exists e. split; [exact Hmag|].
    split; [exact Hperp|].
    rewrite <- (Nat.add_0_r (i * 4)) at 1.
    rewrite !Hcells by lia.
    unfold cross_section. rewrite Hperp, Hyi. simpl.
    repeat split; do 2 f_equal; lra.
  - cbv zeta.
    set (r := constructor mesh20 three_points).
    destruct (constructor_frame mesh20 three_points) as (Hp & Hv & Ht).
    fold r in Hp, Hv, Ht.
    assert (length (points r) = 3%nat) as Hr3 by (now rewrite Hp).
    assert (1 <= length (points r))%nat as Hr1 by lia.
    assert (length (vertices r) = (length (points r) * 4)%nat) as Hrl
      by (now rewrite Hv, Hp).
    destruct (updateTransform_vertices r Hr1 Hrl) as [_ Hrcells].
    assert (NoDup (points r)) as Hrd
      by (rewrite Hp; exact three_points_distinct).
    assert (forall p, p ∈ points r -> y p = 0) as Hry
      by (rewrite Hp; exact three_points_horizontal).
    destruct (horizontal_turn r 0 1 ltac:(lia) Hry Hrd ltac:(lia))
      as (e & Hperp & _ & Hdown & _).
    assert (e = - 10) as ->.
    { rewrite Hdown; [rewrite Ht; simpl; lra|].
      unfold previous. rewrite Hp. simpl. lra. }
    pose proof (Hrcells 1%nat 0%nat ltac:(lia) ltac:(lia)) as C0.
    pose proof (Hrcells 1%nat 1%nat ltac:(lia) ltac:(lia)) as C1.
    pose proof (Hrcells 1%nat 2%nat ltac:(lia) ltac:(lia)) as C2.
    pose proof (Hrcells 1%nat 3%nat ltac:(lia) ltac:(lia)) as C3.
    change (1 * 4 + 0)%nat with 4%nat in C0.
    change (1 * 4 + 1)%nat with 5%nat in C1.
    change (1 * 4 + 2)%nat with 6%nat in C2.
    change (1 * 4 + 3)%nat with 7%nat in C3.
    rewrite C0, C1, C2, C3.
    unfold cross_section. rewrite Hperp, Hp. simpl.
    repeat split; do 2 f_equal; lra.
Qed.

(** A turn whose [nextPoint] is its [lastPoint] leaves [NaN] in both
    components of the normal. *)
Lemma perp_degenerate this last i :
  (if (Z.of_nat i <? Z.of_nat (length (points this)) - 1)%Z
   then points this !!! (i + 1)%nat else points this !!! i) = last ->
  perp this last i = (NaN, NaN).
Proof.
  intros Hnext. rewrite perp_unfold, Hnext. cbv zeta.
  destruct (normal_degenerate last (height (_texture (super this)) / 2))
    as (_ & _ & _ & -> & ->).
  reflexivity.
Qed.

(** When the first turn is such a turn, the first four numbers of the
    buffer are [NaN]. *)
Lemma first_turn_degenerate this :
  (1 <= length (points this))%nat ->
  length (vertices this) = (length (points this) * 4)%nat ->
  (if (Z.of_nat 0 <? Z.of_nat (length (points this)) - 1)%Z
   then points this !!! 1%nat else points this !!! 0%nat)
  = points this !!! 0%nat ->
  forall j, (j < 4)%nat -> vertices (updateTransform this) !! j = Some NaN.
Proof.
  intros HN Hlen Hnext j Hj.
  destruct (updateTransform_vertices this HN Hlen) as [_ Hcells].
  specialize (Hcells 0%nat j ltac:(lia) Hj). simpl in Hcells.
  rewrite Hcells. unfold cross_section.
  rewrite (perp_degenerate this (previous this 0) 0 Hnext).
  destruct j as [|[|[|[|j]]]]; try lia; reflexivity.
Qed.

(** C10: the normalisation divides by the length without a test.  For a
    rope of one point the turn has [nextPoint] and [lastPoint] on that
    point: the length is 0, the two divisions are made all the same and
    give [NaN], and the four numbers stored are [NaN].  The same holds
    for the first cross-section of a rope whose first two points
    coincide.  So there is an input on which the normalisation gives no
    defined value. *)
Theorem normalisation_unguarded :
  (forall this p,
     points this = [p] ->
     length (vertices this) = 4%nat ->
     perpLength (updateTransform_loop this) = Some (Fin 0)
     /\ perpX (updateTransform_loop this) = NaN
     /\ perpY (updateTransform_loop this) = NaN
     /\ vertices (updateTransform this) = [NaN; NaN; NaN; NaN])
  /\ (forall this p rest,
        points this = p :: p :: rest ->
        length (vertices this) = (length (points this) * 4)%nat ->
        forall j, (j < 4)%nat ->
                  vertices (updateTransform this) !! j = Some NaN)
  /\ exists this,
       (1 <= length (points this))%nat
       /\ length (vertices this) = (length (points this) * 4)%nat
       /\ vertices (updateTransform this) !! 0%nat = Some NaN.
Proof.
  assert (forall this p,
     points this = [p] -> length (vertices this) = 4%nat ->
     forall j, (j < 4)%nat ->
               vertices (updateTransform this) !! j = Some NaN) as Hone.
  { intros this p Hp Hlen. apply first_turn_degenerate.
    - rewrite Hp. simpl. lia.
    - now rewrite Hlen, Hp.
    - rewrite Hp. reflexivity. }
  split; [|split].
  - intros this p Hp Hlen.
    destruct (normal_degenerate p (height (_texture (super this)) / 2))
      as (_ & _ & HL & HX & HY).
    unfold updateTransform_loop. rewrite Hp.
    cbn [length seq fold_left].
    unfold updateTransform_step. rewrite Hp.
    cbn [perpLength perpX perpY length lastPoint updateTransform_init].
    rewrite Hp.
    replace ([p] !!! 0%nat) with p by reflexivity.
    replace (Z.of_nat 0 <? Z.of_nat 1 - 1)%Z with false by reflexivity.
    rewrite HX, HY, HL. repeat split.
    pose proof (Hone this p Hp Hlen) as Hcells.
    assert (length (vertices (updateTransform this)) = 4%nat) as Hlen'.
    { destruct (updateTransform_vertices this) as [Hl _];
        rewrite ?Hp; simpl; try lia. now rewrite Hl, Hp. }
    destruct (vertices (updateTransform this))
      as [|a [|b [|c [|d [|]]]]]; try discriminate.
    pose proof (Hcells 0%nat ltac:(lia)) as [= ->].
    pose proof (Hcells 1%nat ltac:(lia)) as [= ->].
    pose proof (Hcells 2%nat ltac:(lia)) as [= ->].
    pose proof (Hcells 3%nat ltac:(lia)) as [= ->].
    reflexivity.
  - intros this p rest Hp Hlen. apply first_turn_degenerate.
    + rewrite Hp. simpl. lia.
    + exact Hlen.
    + rewrite Hp. simpl.
      destruct (_ <? _)%Z; reflexivity.
  - exists (constructor mesh20 [ {| x := 0; y := 0 |} ]).
    destruct (constructor_frame mesh20 [ {| x := 0; y := 0 |} ])
      as (Hp & Hv & _).
    split; [now rewrite Hp|]. split; [now rewrite Hv, Hp|].
    apply (Hone _ _ Hp); [now rewrite Hv | lia].
Qed.

Lemma normalisation_unguarded_witness :
  vertices (updateTransform (constructor mesh20 [ {| x := 0; y := 0 |} ]))
  = [NaN; NaN; NaN; NaN].
Proof.
  destruct normalisation_unguarded as (Hone & _).
  destruct (constructor_frame mesh20 [ {| x := 0; y := 0 |} ])
    as (Hp & Hv & _).
  apply (Hone _ _ Hp). now rewrite Hv.
Defined.

Lemma updateTransform_cross_sections_witness :
  let r := constructor mesh20 three_points in
  length (vertices (updateTransform r)) = 12%nat
  /\ exists e,
       (e = 10 \/ e = - 10)
       /\ vertices (updateTransform r) !! 9%nat = Some (Fin (0 + e))
       /\ vertices (updateTransform r) !! 11%nat = Some (Fin (0 - e)).
Proof.
  intros r.
  destruct (constructor_frame mesh20 three_points) as (Hp & Hv & Ht).
  fold r in Hp, Hv, Ht.
  assert (1 <= length (points r))%nat as H1 by (rewrite Hp; simpl; lia).
  assert (length (vertices r) = (length (points r) * 4)%nat) as H2
    by (now rewrite Hv, Hp).
  destruct (updateTransform_cross_sections r H1 H2)
    as (Hlen & _ & Hchain & _).
  split; [rewrite Hlen, Hp; reflexivity|].
  destruct (Hchain 0) with (i := 2%nat)
    as (e & Hmag & _ & _ & Hup & _ & Hdown).
  - rewrite Hp. simpl. lia.
  - rewrite Hp. exact three_points_horizontal.
  - rewrite Hp. exact three_points_distinct.
  - rewrite Hp. simpl. lia.
  - exists e. rewrite Ht in Hmag. simpl in Hmag.
    split; [destruct Hmag; [left | right]; lra|].
    split; [exact Hup | exact Hdown].
Defined.

(** ** More on [refresh] *)

(** Without a point, or while the UV rectangle of the texture is not
    set, [refresh] changes nothing: no buffer is written and no dirty flag
    is raised. *)
Theorem refresh_noop this :
  points this = [] \/ _uvs (_texture (super this)) = None ->
  refresh this = this.
Proof.
  intros [H|H]; unfold refresh; rewrite H; [reflexivity|].
  now destruct (length (points this) <? 1)%nat.
Qed.

Lemma refresh_noop_witness :
  refresh (allocate unresolved_mesh three_points)
  = allocate unresolved_mesh three_points.
Proof. apply refresh_noop. right. reflexivity. Defined.

Lemma refresh_lengths this :
  length (uvs (refresh this)) = length (uvs this)
  /\ length (colors (refresh this)) = length (colors this)
  /\ length (indices (refresh this)) = length (indices this).
Proof.
  unfold refresh.
  destruct (length (points this) <? 1)%nat; [repeat split|].
  destruct (_uvs (_texture (super this))) as [tuv|]; [|repeat split].
  cbv zeta. cbn [uvs colors indices].
  match goal with
  | |- context [fold_left ?f (seq 1 ?k) ?b0] =>
      destruct (refresh_loop_prefix (length (points this))
                  {| x := x2 tuv - x0 tuv; y := y2 tuv - y0 tuv |}
                  {| x := x0 tuv; y := y0 tuv |} b0 k)
        as ((Lu & Lc & Li) & _)
  end.
  cbv zeta in Lu, Lc, Li. rewrite Lu, Lc, Li.
  cbn [b_uvs b_colors b_indices].
  unfold Float32Array_set, Uint16Array_set. rewrite !length_insert.
  repeat split.
Qed.

Lemma refresh_ready this : _ready (refresh this) = _ready this.
Proof.
  unfold refresh. destruct (length (points this) <? 1)%nat; [reflexivity|].
  now destruct (_uvs (_texture (super this))).
Qed.

(** [refresh] never resizes a buffer, whatever the number of points has
    become since the buffers were created: a store past the end of a typed
    array is dropped.  It leaves the points and the vertices alone. *)
Theorem refresh_keeps_sizes this :
  length (uvs (refresh this)) = length (uvs this)
  /\ length (colors (refresh this)) = length (colors this)
  /\ length (indices (refresh this)) = length (indices this)
  /\ points (refresh this) = points this
  /\ vertices (refresh this) = vertices this
  /\ _ready (refresh this) = _ready this.
Proof.
  destruct (refresh_lengths this) as (Lu & Lc & Li).
  destruct (refresh_frame this) as (Hp & Hv & _).
  pose proof (refresh_ready this) as Hr.
  repeat split; assumption.
Qed.

(** The constructor gives the four buffers 4, 4, 2 and 2 cells per
    point, so none at all for an empty list of points; it keeps the list
    of points and marks the rope ready. *)
Theorem constructor_sizes_of_buffers mesh pts :
  length (vertices (constructor mesh pts)) = (length pts * 4)%nat
  /\ length (uvs (constructor mesh pts)) = (length pts * 4)%nat
  /\ length (colors (constructor mesh pts)) = (length pts * 2)%nat
  /\ length (indices (constructor mesh pts)) = (length pts * 2)%nat
  /\ points (constructor mesh pts) = pts
  /\ _ready (constructor mesh pts) = true
  /\ constructor mesh [] = allocate mesh [].
Proof.
  unfold constructor.
  destruct (refresh_lengths (allocate mesh pts)) as (-> & -> & ->).
  destruct (refresh_frame (allocate mesh pts)) as (-> & -> & _).
  rewrite refresh_ready.
  unfold allocate. simpl. rewrite !length_replicate. repeat split.
Qed.

(** A rope built while the UV rectangle of its texture is not set keeps
    its buffers at zero; when the texture update then arrives, the rope
    ends in the state of a rope built on the updated texture.  Before the
    rope is ready, a texture update refreshes nothing. *)
Theorem onTextureUpdate_deferred (Mesh_onTextureUpdate : Mesh -> Mesh)
    mesh pts :
  _uvs (_texture mesh) = None ->
  constructor mesh pts = allocate mesh pts
  /\ _onTextureUpdate Mesh_onTextureUpdate (constructor mesh pts)
     = constructor (Mesh_onTextureUpdate mesh) pts
  /\ forall this,
       _ready this = false ->
       uvs (_onTextureUpdate Mesh_onTextureUpdate this) = uvs this
       /\ colors (_onTextureUpdate Mesh_onTextureUpdate this) = colors this
       /\ indices (_onTextureUpdate Mesh_onTextureUpdate this) = indices this.
Proof.
  intros Hnone.
  assert (constructor mesh pts = allocate mesh pts) as Hc.
  { unfold constructor, refresh. cbn [allocate super points].
    rewrite Hnone. now destruct (length pts <? 1)%nat. }
  split; [exact Hc|]. split.
  - rewrite Hc. reflexivity.
  - intros this Hready. unfold _onTextureUpdate. cbn [_ready].
    rewrite Hready. repeat split.
Qed.

Lemma onTextureUpdate_deferred_witness :
  uvs (_onTextureUpdate (fun _ => mesh20)
         (constructor unresolved_mesh three_points)) !! 8%nat
  = Some (Fin (INR 2 / (INR 3 - 1) * (1 - 0) + 0)).
Proof.
  destruct (onTextureUpdate_deferred (fun _ => mesh20) unresolved_mesh
              three_points eq_refl) as (_ & -> & _).
  destruct (allocate_sizes mesh20 three_points) as (Hp & Lu & Lc & Li).
  destruct (refresh_uvs_colors (allocate mesh20 three_points)
              {| x0 := 0; y0 := 0; x2 := 1; y2 := 1 |})
    as (_ & _ & Huv & _);
    rewrite ?Hp; try assumption; try reflexivity; [simpl; lia|].
  rewrite Hp in Huv. apply (Huv 2%nat). simpl. lia.
Defined.

(** Two arrays of [N] groups of [w] cells that agree group by group are
    equal. *)
Lemma list_eq_cells {A} (l1 l2 : list A) (w N : nat) :
  (0 < w)%nat ->
  length l1 = (N * w)%nat ->
  length l2 = (N * w)%nat ->
  (forall i j, (i < N)%nat -> (j < w)%nat ->
               l1 !! (i * w + j)%nat = l2 !! (i * w + j)%nat) ->
  l1 = l2.
Proof.
  intros Hw L1 L2 Hcells. apply list_eq. intros q.
  destruct (decide (q < N * w)%nat) as [Hq|Hq].
  - pose proof (Nat.div_mod_eq q w) as Hdm.
    pose proof (Nat.mod_upper_bound q w ltac:(lia)) as Hj.
    assert (q / w < N)%nat as Hi
      by (apply Nat.Div0.div_lt_upper_bound; lia).
    replace q with (q / w * w + q mod w)%nat by lia.
    now apply Hcells.
  - rewrite !lookup_ge_None_2 by lia. reflexivity.
Qed.

Lemma refresh_super this tuv :
  (1 <= length (points this))%nat ->
  _uvs (_texture (super this)) = Some tuv ->
  super (refresh this)
  = {| _texture := _texture (super this); dirty := true; indexDirty := true;
       containerUpdates := containerUpdates (super this) |}.
Proof.
  intros HN Huv. unfold refresh.
  destruct (Nat.ltb_spec (length (points this)) 1); [lia|].
  now rewrite Huv.
Qed.

(** What [refresh] leaves in the uvs, the colours and the indices depends
    on the number of points and on the UV rectangle only: not on where the
    points are, nor on what the buffers held.  So a second [refresh]
    changes nothing. *)
Theorem refresh_determined this this' tuv :
  (1 <= length (points this))%nat ->
  length (points this') = length (points this) ->
  _uvs (_texture (super this)) = Some tuv ->
  _uvs (_texture (super this')) = Some tuv ->
  length (uvs this) = (length (points this) * 4)%nat ->
  length (colors this) = (length (points this) * 2)%nat ->
  length (indices this) = (length (points this) * 2)%nat ->
  length (uvs this') = (length (points this) * 4)%nat ->
  length (colors this') = (length (points this) * 2)%nat ->
  length (indices this') = (length (points this) * 2)%nat ->
  (uvs (refresh this') = uvs (refresh this)
   /\ colors (refresh this') = colors (refresh this)
   /\ indices (refresh this') = indices (refresh this))
  /\ refresh (refresh this) = refresh this.
Proof.
  intros HN.
  assert (forall r r',
    (1 <= length (points r))%nat ->
    length (points r') = length (points r) ->
    _uvs (_texture (super r)) = Some tuv ->
    _uvs (_texture (super r')) = Some tuv ->
    length (uvs r) = (length (points r) * 4)%nat ->
    length (colors r) = (length (points r) * 2)%nat ->
    length (indices r) = (length (points r) * 2)%nat ->
    length (uvs r') = (length (points r) * 4)%nat ->
    length (colors r') = (length (points r) * 2)%nat ->
    length (indices r') = (length (points r) * 2)%nat ->
    uvs (refresh r') = uvs (refresh r)
    /\ colors (refresh r') = colors (refresh r)
    /\ indices (refresh r') = indices (refresh r)) as Hsame.
  { clear. intros r r' HN HN' Huv Huv' Lu Lc Li Lu' Lc' Li'.
    destruct (refresh_uvs_colors r tuv HN Huv Lu Lc Li)
      as ((L1 & L2 & L3) & (U0 & U2) & Ux & Uy & Cs & _).
    pose proof (refresh_indices r tuv HN Huv Lu Lc Li) as Is.
    rewrite <- HN' in HN, Lu', Lc', Li'.
    destruct (refresh_uvs_colors r' tuv HN Huv' Lu' Lc' Li')
      as ((L1' & L2' & L3') & (U0' & U2') & Ux' & Uy' & Cs' & _).
    pose proof (refresh_indices r' tuv HN Huv' Lu' Lc' Li') as Is'.
    rewrite HN' in *.
    split; [|split].
    - apply (list_eq_cells _ _ 4 (length (points r))); try lia.
      intros i j Hi Hj.
      destruct (Uy i Hi) as [Y1 Y3]. destruct (Uy' i Hi) as [Y1' Y3'].
      destruct (decide (i = 0%nat)) as [->|Hne].
      + destruct j as [|[|[|[|j]]]]; try lia; cbn [Nat.mul Nat.add] in *;
          congruence.
      + destruct (Ux i ltac:(lia)) as [X0 X2].
        destruct (Ux' i ltac:(lia)) as [X0' X2'].
        destruct j as [|[|[|[|j]]]]; try lia;
          rewrite ?Nat.add_0_r; congruence.
    - apply (list_eq_cells _ _ 2 (length (points r))); try lia.
      intros i j Hi Hj.
      destruct (Cs i Hi) as [C0 C1]. destruct (Cs' i Hi) as [C0' C1'].
      destruct j as [|[|j]]; try lia; rewrite ?Nat.add_0_r; congruence.
    - apply (list_eq_cells _ _ 2 (length (points r))); try lia.
      intros i j Hi Hj.
      destruct (Is i Hi) as [I0 I1]. destruct (Is' i Hi) as [I0' I1'].
      destruct j as [|[|j]]; try lia; rewrite ?Nat.add_0_r; congruence. }
  intros HN' Huv Huv' Lu Lc Li Lu' Lc' Li'.
  split; [now apply Hsame|].
  destruct (refresh_lengths this) as (Ku & Kc & Ki).
  pose proof (refresh_ready this) as Kr.
  destruct (refresh_frame this) as (Kp & Kv & Kt).
  pose proof (refresh_super this tuv HN Huv) as Ks.
  destruct (Hsame this (refresh this)) as (Eu & Ec & Ei);
    rewrite ?Kp, ?Kt, ?Ku, ?Kc, ?Ki; try assumption; try reflexivity.
  pose proof (refresh_ready (refresh this)) as Kr'.
  destruct (refresh_frame (refresh this)) as (Kp' & Kv' & _).
  pose proof (refresh_super (refresh this) tuv) as Ks'.
  rewrite Kp, Kt in Ks'. specialize (Ks' HN Huv).
  rewrite Ks in Ks'. cbn [_texture containerUpdates] in Ks'.
  rewrite <- Ks in Ks'.
  destruct (refresh (refresh this)), (refresh this). simpl in *.
  now subst.
Qed.

Lemma refresh_determined_witness :
  refresh (constructor mesh20 three_points) = constructor mesh20 three_points.
Proof.
  destruct (allocate_sizes mesh20 three_points) as (Hp & Lu & Lc & Li).
  apply (refresh_determined (allocate mesh20 three_points)
           (allocate mesh20 three_points)
           {| x0 := 0; y0 := 0; x2 := 1; y2 := 1 |});
    rewrite ?Hp; try assumption; try reflexivity.
  simpl. lia.
Defined.

(** The texture spans the rope: with two points or more, the first
    cross-section is on the left edge of the UV rectangle and the last one
    on its right edge, and each cross-section runs from the top edge to
    the bottom edge. *)
Theorem refresh_spans_texture this tuv :
  (2 <= length (points this))%nat ->
  _uvs (_texture (super this)) = Some tuv ->
  length (uvs this) = (length (points this) * 4)%nat ->
  length (colors this) = (length (points this) * 2)%nat ->
  length (indices this) = (length (points this) * 2)%nat ->
  uvs (refresh this) !! 0%nat = Some (Fin (x0 tuv))
  /\ uvs (refresh this) !! ((length (points this) - 1) * 4)%nat
     = Some (Fin (x2 tuv))
  /\ forall i,
       (i < length (points this))%nat ->
       uvs (refresh this) !! (i * 4 + 1)%nat = Some (Fin (y0 tuv))
       /\ uvs (refresh this) !! (i * 4 + 3)%nat = Some (Fin (y2 tuv)).
Proof.
  intros HN Huv Lu Lc Li.
  destruct (refresh_uvs_colors this tuv ltac:(lia) Huv Lu Lc Li)
    as (_ & (U0 & _) & Ux & Uy & _).
  split; [exact U0|]. split.
  - destruct (Ux (length (points this) - 1)%nat ltac:(lia)) as [-> _].
    do 2 f_equal. rewrite minus_INR by lia. simpl.
    assert (2 <= INR (length (points this))) as H2
      by (apply le_INR in HN; simpl in HN; lra).
    field. lra.
  - intros i Hi. destruct (Uy i Hi) as [-> ->].
    split; [reflexivity|]. do 2 f_equal. lra.
Qed.

Lemma refresh_spans_texture_witness :
  uvs (constructor mesh20 three_points) !! 8%nat = Some (Fin 1).
Proof.
  destruct (allocate_sizes mesh20 three_points) as (Hp & Lu & Lc & Li).
  destruct (refresh_spans_texture (allocate mesh20 three_points)
              {| x0 := 0; y0 := 0; x2 := 1; y2 := 1 |})
    as (_ & Hlast & _); try assumption; try reflexivity.
  rewrite Hp. simpl. lia.
Defined.

(** ** More on [updateTransform] *)

(** [updateTransform] never resizes the vertex buffer and leaves the
    points, the uvs, the colours and the indices alone.  Without a point it
    changes nothing at all, and does not even run the inherited transform
    update; with a point it runs it once. *)
Theorem updateTransform_frame this :
  length (vertices (updateTransform this)) = length (vertices this)
  /\ points (updateTransform this) = points this
  /\ uvs (updateTransform this) = uvs this
  /\ colors (updateTransform this) = colors this
  /\ indices (updateTransform this) = indices this
  /\ match points this with
     | [] => updateTransform this = this
     | _ :: _ =>
         containerUpdates (super (updateTransform this))
         = S (containerUpdates (super this))
     end.
Proof.
  unfold updateTransform.
  destruct (Nat.ltb_spec (length (points this)) 1) as [H|H].
  - repeat split. destruct (points this); [reflexivity | simpl in H; lia].
  - cbn [vertices points uvs colors indices super]. unfold updateTransform_loop.
    destruct (loop_prefix this (length (points this)) (length (points this)))
      as (_ & -> & _).
    repeat split. destruct (points this); [simpl in H; lia | reflexivity].
Qed.

Lemma following_in this i :
  (i < length (points this))%nat ->
  exists j, (j < length (points this))%nat
            /\ following this i = points this !!! j
            /\ (j = i + 1 \/ j = i)%nat.
Proof.
  intros Hi. unfold following.
  destruct (Z.ltb_spec (Z.of_nat i) (Z.of_nat (length (points this)) - 1)).
  - exists (i + 1)%nat. repeat split; [lia | now left].
  - exists i. repeat split; [lia | now right].
Qed.

Lemma perp_following this last i :
  perp this last i
  = let perpY := neg (sub (Fin (x (following this i))) (Fin (x last))) in
    let perpX := sub (Fin (y (following this i))) (Fin (y last)) in
    let perpLength := sqrt (add (mul perpX perpX) (mul perpY perpY)) in
    let num := Fin (height (_texture (super this)) / 2) in
    (mul (div perpX perpLength) num, mul (div perpY perpLength) num).
Proof. apply perp_unfold. Qed.

(** The normal of a tangent that is not zero: finite, as long as the
    scale, and perpendicular to the tangent. *)
Lemma normal_general (xn xl yn yl h : R) :
  xn <> xl \/ yn <> yl ->
  let perpY := neg (sub (Fin xn) (Fin xl)) in
  let perpX := sub (Fin yn) (Fin yl) in
  let perpLength := sqrt (add (mul perpX perpX) (mul perpY perpY)) in
  exists px py,
    (mul (div perpX perpLength) (Fin h), mul (div perpY perpLength) (Fin h))
    = (Fin px, Fin py)
    /\ px * px + py * py = h * h
    /\ px * (xn - xl) + py * (yn - yl) = 0.
Proof.
  intros Hne. cbv zeta. unfold sub, neg, mul, add, lift2, sqrt.
  set (u := xn - xl). set (v := yn - yl).
  assert (0 < v * v + - u * - u) as Hpos.
  { pose proof (Rle_0_sqr u) as Hu. pose proof (Rle_0_sqr v) as Hv.
    unfold Rsqr in Hu, Hv.
    destruct Hne as [H|H].
    - assert (u <> 0) as H0 by (subst u; lra).
      apply Rsqr_pos_lt in H0. unfold Rsqr in H0. lra.
    - assert (v <> 0) as H0 by (subst v; lra).
      apply Rsqr_pos_lt in H0. unfold Rsqr in H0. lra. }
  destruct (Rlt_dec (v * v + - u * - u) 0) as [Hneg|_]; [lra|].
  pose proof (sqrt_lt_R0 _ Hpos) as HL.
  pose proof (sqrt_sqrt (v * v + - u * - u) ltac:(lra)) as HLL.
  set (L := R_sqrt.sqrt (v * v + - u * - u)) in *.
  unfold div. destruct (Req_dec_T L 0) as [H0|_]; [lra|].
  exists (v / L * h), (- u / L * h). split; [reflexivity|]. split.
  - replace (v / L * h * (v / L * h) + - u / L * h * (- u / L * h))
      with (h * h * ((v * v + - u * - u) / (L * L))) by (field; lra).
    rewrite HLL. field. lra.
  - field. lra.
Qed.

Lemma perp_finite this i :
  following this i <> previous this i ->
  exists px py,
    perp this (previous this i) i = (Fin px, Fin py)
    /\ px * px + py * py
      = height (_texture (super this)) / 2
        * (height (_texture (super this)) / 2)
    /\ px * (x (following this i) - x (previous this i))
      + py * (y (following this i) - y (previous this i)) = 0.
Proof.
  intros Hne.
  assert (x (following this i) <> x (previous this i)
          \/ y (following this i) <> y (previous this i)) as Hxy.
  { destruct (Req_dec_T (x (following this i)) (x (previous this i)))
      as [Hx|Hx]; [|now left].
    right. intros Hy. apply Hne.
    destruct (following this i), (previous this i). simpl in *. now subst. }
  destruct (normal_general _ _ _ _ (height (_texture (super this)) / 2) Hxy)
    as (px & py & Hperp & Hnorm & Horth).
  exists px, py. rewrite perp_following. cbv zeta.
  repeat split; assumption.
Qed.

(** A rope as wide as its texture is high: at a point whose neighbours
    differ, the two vertices are the point plus and minus a finite normal,
    of length half the texture height and perpendicular to the line from
    the point before to the point after. *)
Theorem updateTransform_width this i :
  (i < length (points this))%nat ->
  length (vertices this) = (length (points this) * 4)%nat ->
  following this i <> previous this i ->
  exists px py,
    vertices (updateTransform this) !! (i * 4)%nat
      = Some (Fin (x (points this !!! i) + px))
    /\ vertices (updateTransform this) !! (i * 4 + 1)%nat
      = Some (Fin (y (points this !!! i) + py))
    /\ vertices (updateTransform this) !! (i * 4 + 2)%nat
      = Some (Fin (x (points this !!! i) - px))
    /\ vertices (updateTransform this) !! (i * 4 + 3)%nat
      = Some (Fin (y (points this !!! i) - py))
    /\ px * px + py * py
      = height (_texture (super this)) / 2
        * (height (_texture (super this)) / 2)
    /\ px * (x (following this i) - x (previous this i))
      + py * (y (following this i) - y (previous this i)) = 0.
Proof.
  intros Hi Hlen Hne.
  destruct (updateTransform_vertices this ltac:(lia) Hlen) as [_ Hcells].
  destruct (perp_finite this i Hne) as (px & py & Hperp & Hnorm & Horth).
  exists px, py.
  rewrite <- (Nat.add_0_r (i * 4)) at 1.
  rewrite !Hcells by lia. unfold cross_section. rewrite Hperp.
  repeat split; assumption.
Qed.

Lemma updateTransform_width_witness :
  exists px py,
    vertices (updateTransform (constructor mesh20 corner)) !! 4%nat
      = Some (Fin (3 + px))
    /\ px * px + py * py = 100.
Proof.
  destruct (constructor_frame mesh20 corner) as (Hp & Hv & Ht).
  destruct (updateTransform_width (constructor mesh20 corner) 1)
    as (px & py & H0 & _ & _ & _ & Hnorm & _).
  - rewrite Hp. simpl. lia.
  - now rewrite Hv, Hp.
  - unfold following, previous. rewrite Hp. simpl.
    intros [= H _]. lra.
  - exists px, py. rewrite Hp in H0. simpl in H0. split; [exact H0|].
    rewrite Hnorm, Ht. simpl. lra.
Defined.

(** The stored numbers are [NaN] exactly at the points whose two
    neighbours coincide (for the first and the last point: the point
    itself and its one neighbour). *)
Theorem updateTransform_NaN_iff this i j :
  (i < length (points this))%nat ->
  (j < 4)%nat ->
  length (vertices this) = (length (points this) * 4)%nat ->
  vertices (updateTransform this) !! (i * 4 + j)%nat = Some NaN
  <-> following this i = previous this i.
Proof.
  intros Hi Hj Hlen. split.
  - intros Hnan.
    destruct (Classical_Prop.classic (following this i = previous this i))
      as [|Hne]; [assumption|].
    exfalso.
    destruct (updateTransform_vertices this ltac:(lia) Hlen) as [_ Hcells].
    destruct (perp_finite this i Hne) as (px & py & Hperp & _).
    rewrite Hcells in Hnan by lia. unfold cross_section in Hnan.
    rewrite Hperp in Hnan.
    destruct j as [|[|[|[|j]]]]; try lia; discriminate.
  - intros Heq.
    destruct (updateTransform_vertices this ltac:(lia) Hlen) as [_ Hcells].
    rewrite Hcells by lia. unfold cross_section.
    rewrite (perp_degenerate this (previous this i) i Heq).
    destruct j as [|[|[|[|j]]]]; try lia; reflexivity.
Qed.

Lemma updateTransform_NaN_iff_witness :
  vertices (updateTransform (constructor mesh20 corner)) !! 5%nat <> Some NaN.
Proof.
  destruct (constructor_frame mesh20 corner) as (Hp & Hv & Ht).
  intros Hnan.
  apply (updateTransform_NaN_iff (constructor mesh20 corner) 1 1) in Hnan.
  - unfold following, previous in Hnan. rewrite Hp in Hnan. simpl in Hnan.
    injection Hnan as H _. lra.
  - rewrite Hp. simpl. lia.
  - lia.
  - now rewrite Hv, Hp.
Defined.

Lemma cross_section_ext this this' i :
  points this' = points this ->
  height (_texture (super this')) = height (_texture (super this)) ->
  cross_section this' i = cross_section this i.
Proof.
  intros Hp Hh. unfold cross_section, previous.
  rewrite !perp_unfold, Hp, Hh. reflexivity.
Qed.

(** The vertices after [updateTransform] depend on the points and on the
    height of the texture only, not on what the buffer held: every cell
    is written again.  So a second [updateTransform] on points that did
    not move leaves the same vertices. *)
Theorem updateTransform_determined this this' :
  (1 <= length (points this))%nat ->
  points this' = points this ->
  height (_texture (super this')) = height (_texture (super this)) ->
  length (vertices this) = (length (points this) * 4)%nat ->
  length (vertices this') = (length (points this) * 4)%nat ->
  vertices (updateTransform this') = vertices (updateTransform this)
  /\ vertices (updateTransform (updateTransform this))
     = vertices (updateTransform this).
Proof.
  intros HN.
  assert (forall r r',
    (1 <= length (points r))%nat ->
    points r' = points r ->
    height (_texture (super r')) = height (_texture (super r)) ->
    length (vertices r) = (length (points r) * 4)%nat ->
    length (vertices r') = (length (points r) * 4)%nat ->
    vertices (updateTransform r') = vertices (updateTransform r)) as Hsame.
  { clear. intros r r' HN Hp Hh Lv Lv'.
    destruct (updateTransform_vertices r HN Lv) as [L Hcells].
    rewrite <- Hp in HN, Lv'.
    destruct (updateTransform_vertices r' HN Lv') as [L' Hcells'].
    rewrite Hp in *.
    apply (list_eq_cells _ _ 4 (length (points r))); try lia.
    intros i j Hi Hj. rewrite Hcells, Hcells' by assumption.
    now rewrite (cross_section_ext r r' i Hp Hh). }
  intros Hp Hh Lv Lv'. split; [now apply Hsame|].
  destruct (updateTransform_vertices this HN Lv) as [L _].
  apply Hsame; try assumption.
  - unfold updateTransform.
    now destruct (length (points this) <? 1)%nat.
  - unfold updateTransform.
    now destruct (length (points this) <? 1)%nat.
Qed.

Lemma updateTransform_determined_witness :
  vertices (updateTransform (updateTransform (constructor mesh20 corner)))
  = vertices (updateTransform (constructor mesh20 corner)).
Proof.
  destruct (constructor_frame mesh20 corner) as (Hp & Hv & Ht).
  apply (updateTransform_determined (constructor mesh20 corner)
           (constructor mesh20 corner));
    try reflexivity; rewrite ?Hv, ?Hp; try reflexivity.
  simpl. lia.
Defined.

Lemma perp_translate this dx dy i :
  (i < length (points this))%nat ->
  perp (with_points (translate dx dy <$> points this) this)
       (previous (with_points (translate dx dy <$> points this) this) i) i
  = perp this (previous this i) i.
Proof.
  intros Hi. rewrite !perp_unfold. unfold previous.
  cbn [points with_points super]. rewrite length_fmap.
  assert (forall j, (j < length (points this))%nat ->
            (translate dx dy <$> points this) !!! j
            = translate dx dy (points this !!! j)) as Hat.
  { intros j Hj. apply list_lookup_total_correct.
    rewrite list_lookup_fmap.
    now rewrite (list_lookup_lookup_total_lt (points this) j Hj). }
  rewrite (Hat (i - 1)%nat) by lia. rewrite (Hat i) by lia.
  destruct (Z.ltb_spec (Z.of_nat i) (Z.of_nat (length (points this)) - 1)).
  - rewrite (Hat (i + 1)%nat) by lia.
    cbv zeta. unfold translate, sub, neg, lift2. cbn [x y].
    replace (x (points this !!! (i + 1)%nat) + dx
             - (x (points this !!! (i - 1)%nat) + dx))
      with (x (points this !!! (i + 1)%nat) - x (points this !!! (i - 1)%nat))
      by lra.
    replace (y (points this !!! (i + 1)%nat) + dy
             - (y (points this !!! (i - 1)%nat) + dy))
      with (y (points this !!! (i + 1)%nat) - y (points this !!! (i - 1)%nat))
      by lra.
    reflexivity.
  - cbv zeta. unfold translate, sub, neg, lift2. cbn [x y].
    replace (x (points this !!! i) + dx
             - (x (points this !!! (i - 1)%nat) + dx))
      with (x (points this !!! i) - x (points this !!! (i - 1)%nat)) by lra.
    replace (y (points this !!! i) + dy
             - (y (points this !!! (i - 1)%nat) + dy))
      with (y (points this !!! i) - y (points this !!! (i - 1)%nat)) by lra.
    reflexivity.
Qed.

(** Moving every point by the same vector moves every vertex by that
    vector: the normals depend on differences of points only.  A [NaN]
    stays a [NaN]. *)
Theorem updateTransform_translate this dx dy i :
  (i < length (points this))%nat ->
  length (vertices this) = (length (points this) * 4)%nat ->
  let moved := with_points (translate dx dy <$> points this) this in
  vertices (updateTransform moved) !! (i * 4)%nat
    = add (Fin dx) <$> vertices (updateTransform this) !! (i * 4)%nat
  /\ vertices (updateTransform moved) !! (i * 4 + 1)%nat
    = add (Fin dy) <$> vertices (updateTransform this) !! (i * 4 + 1)%nat
  /\ vertices (updateTransform moved) !! (i * 4 + 2)%nat
    = add (Fin dx) <$> vertices (updateTransform this) !! (i * 4 + 2)%nat
  /\ vertices (updateTransform moved) !! (i * 4 + 3)%nat
    = add (Fin dy) <$> vertices (updateTransform this) !! (i * 4 + 3)%nat.
Proof.
  intros Hi Hlen moved.
  destruct (updateTransform_vertices this ltac:(lia) Hlen) as [_ Hcells].
  assert (length (points moved) = length (points this)) as Hpm
    by (unfold moved; cbn [points with_points]; apply length_fmap).
  destruct (updateTransform_vertices moved) as [_ Hcells'];
    [lia | rewrite Hpm; exact Hlen |].
  rewrite <- (Nat.add_0_r (i * 4)) at 1 2.
  rewrite !Hcells, !Hcells' by lia.
  pose proof (perp_translate this dx dy i Hi) as Hperp. fold moved in Hperp.
  assert (points moved !!! i = translate dx dy (points this !!! i)) as Hpoint.
  { unfold moved. cbn [points with_points].
    apply list_lookup_total_correct. rewrite list_lookup_fmap.
    now rewrite (list_lookup_lookup_total_lt (points this) i Hi). }
  unfold cross_section. cbv zeta. rewrite Hperp, Hpoint.
  destruct (perp this (previous this i) i) as [[px|] [py|]];
    unfold add, sub, lift2, translate; cbn;
    repeat split; try reflexivity; do 2 f_equal; lra.
Qed.

Lemma updateTransform_translate_witness :
  vertices (updateTransform
              (with_points (translate 5 7 <$> three_points)
                 (constructor mesh20 three_points))) !! 5%nat
  = Some (Fin (7 + -10)).
Proof.
  destruct (constructor_frame mesh20 three_points) as (Hp & Hv & Ht).
  destruct (updateTransform_translate (constructor mesh20 three_points) 5 7 1)
    as (_ & H1 & _).
  - rewrite Hp. simpl. lia.
  - now rewrite Hv, Hp.
  - rewrite Hp in H1. cbn [Nat.mul Nat.add] in H1. rewrite H1.
    destruct (constructor_frame mesh20 three_points) as (Hp' & Hv' & _).
    destruct (updateTransform_vertices (constructor mesh20 three_points))
      as [_ Hcells]; [rewrite Hp'; simpl; lia | now rewrite Hv', Hp' |].
    pose proof (Hcells 1%nat 1%nat ltac:(rewrite Hp'; simpl; lia)
                  ltac:(lia)) as C1.
    cbn [Nat.mul Nat.add] in C1. rewrite C1. unfold cross_section.
    destruct (horizontal_turn (constructor mesh20 three_points) 0 1)
      as (e & Hperp & _ & Hdown & _).
    + rewrite Hp'. simpl. lia.
    + rewrite Hp'. exact three_points_horizontal.
    + rewrite Hp'. exact three_points_distinct.
    + rewrite Hp'. simpl. lia.
    + rewrite Hperp, Hp'. simpl.
      rewrite Hdown; [rewrite Ht; simpl; do 2 f_equal; lra|].
      unfold previous. rewrite Hp'. simpl. lra.
Defined.

End Rope_properties.
